(** * wp-call: the browser / WhatsApp call bridge of [server.js]

    A shallow embedding of the signalling server.  The JavaScript program is
    one event loop mutating a handful of module-level variables; it is
    modelled as a deterministic, executable function [step] from a server
    configuration and one event-loop input to the next configuration and the
    list of effects the handler produced.  An [async] function is cut at each
    [await] that waits for the outside world (an [axios.post], a peer-engine
    promise, a timer, the provider's first track): the rest of the function is
    stored as a first-order [task] and resumed by the input that carries the
    outcome.  Everything between two such points runs without interleaving,
    as on Node's event loop.

    Not modelled: what the console prints (but building a log line out of a
    template literal converts its holes to strings, which can throw, and
    that is modelled), static files, and the media engine itself: its
    promises and callbacks are inputs, the [wrtc] module is taken to have
    loaded, and its constructors and synchronous methods are taken to
    return.  The GET verification route keeps no state and is modelled
    apart from the event loop, as the function [webhook_get].  A rejection
    or exception that no handler of the program catches is recorded as the
    effect [Unhandled] and the server goes on. *)

From Stdlib Require Import String Ascii ZArith List Bool Lia DecimalString.
Import ListNotations.
Open Scope string_scope.

(* ===================================================================== *)
(** ** JavaScript values *)
(* ===================================================================== *)

(** [Number.MAX_SAFE_INTEGER], 2^53 - 1: up to it in magnitude every
    integer is a Number of its own, and prints as its decimal digits. *)
Definition MAX_SAFE_INTEGER : Z := 9007199254740991.

Definition safe_integer (n : Z) : bool := (Z.abs n <=? MAX_SAFE_INTEGER)%Z.

(** The values that reach the server: JSON documents (request bodies, REST
    responses, socket payloads) plus [undefined].  Numbers are restricted to
    the safe integers, on which [===], ToBoolean and ToString are those of
    the integers; nothing below computes with them. *)
#[warnings="-register-all"] Inductive jsval : Type :=
| JUndefined
| JNull
| JBool (b : bool)
| JNum (n : Z) (safe : safe_integer n = true)
| JStr (s : string)
| JArr (items : list jsval)
| JObj (fields : list (string * jsval)).

(** ToBoolean. *)
Definition truthy (v : jsval) : bool :=
  match v with
  | JUndefined | JNull => false
  | JBool b => b
  | JNum n _ => negb (n =? 0)%Z
  | JStr s => negb (s =? "")
  | JArr _ | JObj _ => true
  end.

(** [a || b]. *)
Definition js_or (a b : jsval) : jsval := if truthy a then a else b.

Definition nullish (v : jsval) : bool :=
  match v with JUndefined | JNull => true | _ => false end.

Fixpoint assoc (k : string) (fields : list (string * jsval)) : jsval :=
  match fields with
  | [] => JUndefined
  | (k', v) :: rest => if k =? k' then v else assoc k rest
  end.

(** [v?.k]: the property of an object, [undefined] on [null], [undefined]
    and on values that carry no such property.  [JObj] lists the properties
    of the object, each key once.  (The only property of a string or array
    the program touches is [sdp.length], whose value is discarded; see
    [member].) *)
Definition prop (v : jsval) (k : string) : jsval :=
  match v with
  | JObj fields => assoc k fields
  | _ => JUndefined
  end.

(** [v?.[0]]: the first element of an array, the first character of a
    string, the property ["0"] of an object. *)
Definition index0 (v : jsval) : jsval :=
  match v with
  | JArr (x :: _) => x
  | JStr (String ch _) => JStr (String ch "")
  | JObj fields => assoc "0" fields
  | _ => JUndefined
  end.

(** [a === b] for two values that come from different JSON documents (or
    literals): primitives compare by value, objects and arrays are distinct
    references. *)
Definition strict_eq (a b : jsval) : bool :=
  match a, b with
  | JUndefined, JUndefined => true
  | JNull, JNull => true
  | JBool x, JBool y => Bool.eqb x y
  | JNum x _, JNum y _ => (x =? y)%Z
  | JStr x, JStr y => (x =? y)
  | _, _ => false
  end.

Definition decimal (n : Z) : string := NilZero.string_of_int (Z.to_int n).

(* ===================================================================== *)
(** ** Exceptions *)
(* ===================================================================== *)

(** What a [catch (error)] block of the program looks at: [error.message]
    and [error.response] (set by axios when the server answered with a
    failure status, absent otherwise). *)
Record js_error : Type := mkError {
  message : jsval;
  response : jsval
}.

Inductive comp (A : Type) : Type :=
| Ret (a : A)
| Throw (e : js_error).
Arguments Ret {A} a.
Arguments Throw {A} e.

Definition bind {A B} (m : comp A) (f : A -> comp B) : comp B :=
  match m with
  | Ret a => f a
  | Throw e => Throw e
  end.

Definition try_catch {A} (body : comp A) (handler : js_error -> comp A)
  : comp A :=
  match body with
  | Ret a => Ret a
  | Throw e => handler e
  end.

Notation "x <- m ;; k" := (bind m (fun x => k))
  (at level 61, m at next level, right associativity).

Definition TypeError (what : string) : js_error :=
  mkError (JStr what) JUndefined.

(** [v.k]: throws on [null] and [undefined]. *)
Definition member (v : jsval) (k : string) : comp jsval :=
  if nullish v
  then Throw (TypeError ("Cannot read properties of "
                         ++ match v with JNull => "null" | _ => "undefined" end))
  else Ret (prop v k).

(** Whether the object itself carries the key. *)
Definition has_own (k : string) (fields : list (string * jsval)) : bool :=
  existsb (fun kv => k =? fst kv) fields.

(** ToString, as a template literal applies it.  An object is converted by
    its [toString] method: the inherited one gives ["[object Object]"]; a
    property [toString] of the object itself hides it and, coming from a
    JSON document, is not callable, and then neither that nor [valueOf]
    gives a primitive and the conversion throws.  An array joins the
    conversions of its elements, [null] and [undefined] giving the empty
    string. *)
Fixpoint to_string (v : jsval) : comp string :=
  match v with
  | JUndefined => Ret "undefined"
  | JNull => Ret "null"
  | JBool true => Ret "true"
  | JBool false => Ret "false"
  | JNum n _ => Ret (decimal n)
  | JStr s => Ret s
  | JObj fields =>
      if has_own "toString" fields
      then Throw (TypeError "Cannot convert object to primitive value")
      else Ret "[object Object]"
  | JArr items =>
      (fix join (l : list jsval) : comp string :=
         match l with
         | [] => Ret ""
         | x :: rest =>
             here <- (if nullish x then Ret "" else to_string x) ;;
             match rest with
             | [] => Ret here
             | _ => more <- join rest ;; Ret (here ++ "," ++ more)
             end
         end) items
  end.

(** The holes of a template literal whose text only goes to the console:
    they are converted from left to right, and the first conversion that
    throws ends the evaluation. *)
Fixpoint interpolate (holes : list jsval) : comp unit :=
  match holes with
  | [] => Ret tt
  | v :: rest => text <- to_string v ;; interpolate rest
  end.

(* ===================================================================== *)
(** ** String.prototype.replace with a string pattern *)
(* ===================================================================== *)

Fixpoint skip (n : nat) (s : string) : string :=
  match n, s with
  | O, _ => s
  | S n', String _ s' => skip n' s'
  | S _, EmptyString => EmptyString
  end.

(** [s.replace(pat, rep)]: the first occurrence of [pat], if any, gives way
    to [rep]; [rep] is taken literally (it holds no [$]). *)
Fixpoint js_replace (pat rep s : string) : string :=
  if prefix pat s then rep ++ skip (String.length pat) s
  else match s with
       | EmptyString => EmptyString
       | String ch s' => String ch (js_replace pat rep s')
       end.

(** Line 435: [waAnswer.sdp.replace("a=setup:actpass", "a=setup:active")]. *)
Definition finalWaSdp (waAnswer_sdp : string) : string :=
  js_replace "a=setup:actpass" "a=setup:active" waAnswer_sdp.

(* ===================================================================== *)
(** ** The provider client (lines 457-621) *)
(* ===================================================================== *)

(** The outcome of [await axios.post(...)]: the promise fulfils with a
    response whose [data] is the parsed body, or rejects. *)
Definition axios_outcome : Type := comp jsval.

Definition obj_failure (msg : jsval) : jsval :=
  JObj [("success", JBool false); ("error", msg)].

(** [response.data?.success === true] *)
Definition success_is_true (data : jsval) : bool :=
  strict_eq (prop data "success") (JBool true).

Module initiateWhatsAppCall.

Definition body (phoneNumber sdp : jsval) : jsval :=
  JObj [("messaging_product", JStr "whatsapp");
        ("to", phoneNumber);
        ("action", JStr "connect");
        ("session", JObj [("sdp_type", JStr "offer"); ("sdp", sdp)])].

(** The [try] block up to the request: the log line reads [sdp.length]. *)
Definition try_before (sdp : jsval) : comp jsval := member sdp "length".

(** The [try] block after the response arrived; [now] is [Date.now()].
    Line 488 logs the callee. *)
Definition try_after (phoneNumber data : jsval) (now : Z) : comp jsval :=
  if success_is_true data then
    logged <- interpolate [phoneNumber] ;;
    call_id <- member data "call_id" ;;
    let callId := js_or call_id (JStr ("outgoing_" ++ decimal now)) in
    Ret (JObj [("success", JBool true); ("callId", callId); ("data", data)])
  else
    Ret (obj_failure (JStr "WhatsApp API did not confirm call initiation")).

Definition catch (error : js_error) : comp jsval :=
  let errorMessage := JStr "Failed to connect to WhatsApp API" in
  let data := prop (response error) "data" in
  let errorMessage :=
    if truthy data
    then js_or (prop (prop data "error") "message") errorMessage
    else errorMessage in
  Ret (obj_failure errorMessage).

(** Either the request is issued, or the function is over before it. *)
Definition start (phoneNumber sdp : jsval) : jsval + comp jsval :=
  match try_before sdp with
  | Ret _ => inl (body phoneNumber sdp)
  | Throw e => inr (catch e)
  end.

Definition resume (phoneNumber : jsval) (r : axios_outcome) (now : Z)
  : comp jsval :=
  try_catch (data <- r ;; try_after phoneNumber data now) catch.

End initiateWhatsAppCall.

Module answerCallToWhatsApp.

Definition body (callId : jsval) (sdp : string) (action : string) : jsval :=
  JObj [("messaging_product", JStr "whatsapp");
        ("call_id", callId);
        ("action", JStr action);
        ("session", JObj [("sdp_type", JStr "answer"); ("sdp", JStr sdp)])].

Definition resume (r : axios_outcome) : comp jsval :=
  try_catch
    (data <- r ;;
     if success_is_true data then Ret (JBool true) else Ret (JBool false))
    (fun _ => Ret (JBool false)).

End answerCallToWhatsApp.

Module rejectCall.

Definition body (callId : jsval) : jsval :=
  JObj [("messaging_product", JStr "whatsapp");
        ("call_id", callId);
        ("action", JStr "reject")].

(** Both branches of lines 576-580 log the call id, and so does the
    [catch] block: a call id that cannot be converted to a string makes the
    [try] block throw, and then the [catch] block as well. *)
Definition resume (callId : jsval) (r : axios_outcome) : comp jsval :=
  try_catch
    (data <- r ;; logged <- interpolate [callId] ;; Ret data)
    (fun error =>
       logged <- interpolate [callId] ;; Ret (obj_failure (message error))).

End rejectCall.

Module terminateCall.

Definition body (callId : jsval) : jsval :=
  JObj [("messaging_product", JStr "whatsapp");
        ("call_id", callId);
        ("action", JStr "terminate")].

(** Both branches of lines 610-614 log the call id, and so does the
    [catch] block, as in [rejectCall]. *)
Definition resume (callId : jsval) (r : axios_outcome) : comp jsval :=
  try_catch
    (data <- r ;; logged <- interpolate [callId] ;; Ret data)
    (fun error =>
       logged <- interpolate [callId] ;; Ret (obj_failure (message error))).

End terminateCall.

(* ===================================================================== *)
(** ** Session state (lines 82-113) *)
(* ===================================================================== *)

Definition peer : Type := nat.
Definition socket : Type := nat.

Record track : Type := mkTrack { track_id : nat; audio : bool }.

(** A MediaStream, as the list of its tracks. *)
Definition stream : Type := list track.

Definition addTrack (t : track) (s : stream) : stream :=
  if existsb (fun u => Nat.eqb (track_id u) (track_id t)) s then s
  else (s ++ [t])%list.

Inductive call_status : Type := idle | waiting_for_sdp | ringing | connected.

Record OutgoingCallState : Type := mkOutgoing {
  phoneNumber : jsval;
  callerName : jsval;
  callId : jsval;
  status : call_status
}.

Record session : Type := mkSession {
  browserPc : option peer;
  browserStream : option stream;
  whatsappPc : option peer;
  whatsappStream : option stream;
  browserOfferSdp : jsval;
  whatsappOfferSdp : jsval;
  browserSocket : option socket;
  currentCallId : jsval;
  isOutgoingCall : bool;
  outgoingCallState : OutgoingCallState
}.

Definition outgoing_idle : OutgoingCallState := mkOutgoing JNull JNull JNull idle.

Definition session_initial : session :=
  mkSession None None None None JNull JNull None JNull false outgoing_idle.

Definition with_browserPeer (pc : peer) (g : session) : session :=
  mkSession (Some pc) (Some []) (whatsappPc g) (whatsappStream g)
    (browserOfferSdp g) (whatsappOfferSdp g) (browserSocket g)
    (currentCallId g) (isOutgoingCall g) (outgoingCallState g).

Definition with_browserStream (s : option stream) (g : session) : session :=
  mkSession (browserPc g) s (whatsappPc g) (whatsappStream g)
    (browserOfferSdp g) (whatsappOfferSdp g) (browserSocket g)
    (currentCallId g) (isOutgoingCall g) (outgoingCallState g).

Definition with_whatsappPc (pc : peer) (g : session) : session :=
  mkSession (browserPc g) (browserStream g) (Some pc) (whatsappStream g)
    (browserOfferSdp g) (whatsappOfferSdp g) (browserSocket g)
    (currentCallId g) (isOutgoingCall g) (outgoingCallState g).

Definition with_whatsappStream (s : option stream) (g : session) : session :=
  mkSession (browserPc g) (browserStream g) (whatsappPc g) s
    (browserOfferSdp g) (whatsappOfferSdp g) (browserSocket g)
    (currentCallId g) (isOutgoingCall g) (outgoingCallState g).

Definition with_browserOffer (sdp : jsval) (sock : socket) (g : session)
  : session :=
  mkSession (browserPc g) (browserStream g) (whatsappPc g) (whatsappStream g)
    sdp (whatsappOfferSdp g) (Some sock)
    (currentCallId g) (isOutgoingCall g) (outgoingCallState g).

Definition with_whatsappOfferSdp (sdp : jsval) (g : session) : session :=
  mkSession (browserPc g) (browserStream g) (whatsappPc g) (whatsappStream g)
    (browserOfferSdp g) sdp (browserSocket g)
    (currentCallId g) (isOutgoingCall g) (outgoingCallState g).

Definition clear_offers (g : session) : session :=
  mkSession (browserPc g) (browserStream g) (whatsappPc g) (whatsappStream g)
    JNull JNull (browserSocket g)
    (currentCallId g) (isOutgoingCall g) (outgoingCallState g).

Definition with_currentCallId (id : jsval) (g : session) : session :=
  mkSession (browserPc g) (browserStream g) (whatsappPc g) (whatsappStream g)
    (browserOfferSdp g) (whatsappOfferSdp g) (browserSocket g)
    id (isOutgoingCall g) (outgoingCallState g).

Definition with_outgoing (flag : bool) (o : OutgoingCallState) (g : session)
  : session :=
  mkSession (browserPc g) (browserStream g) (whatsappPc g) (whatsappStream g)
    (browserOfferSdp g) (whatsappOfferSdp g) (browserSocket g)
    (currentCallId g) flag o.

(** Lines 104-113. *)
Definition resetOutgoingCallState (g : session) : session :=
  with_outgoing false outgoing_idle g.

(** [isOutgoingCall && outgoingCallState.callId === callId], the test of
    lines 266, 285, 299 and 309. *)
Definition is_ours (g : session) (id : jsval) : bool :=
  isOutgoingCall g && strict_eq (callId (outgoingCallState g)) id.

(* ===================================================================== *)
(** ** Effects, suspended functions, inputs *)
(* ===================================================================== *)

Inductive effect : Type :=
| IoEmit (event : string) (payload : jsval)
| SocketEmit (to : socket) (event : string) (payload : jsval)
| AxiosPost (k : nat) (body : jsval)
| SendStatus (req : nat) (code : Z)
| SendJson (req : nat) (code : Z) (body : jsval)
| NewPeer (pc : peer)
| SetRemoteDescription (k : nat) (pc : peer) (sdp : jsval)
| CreateAnswer (k : nat) (pc : peer)
| SetLocalDescription (k : nat) (pc : peer) (sdp : string)
| AddTrack (pc : peer) (t : track)
| AddIceCandidate (pc : peer) (candidate : jsval)
| SetTimeout (k : nat) (ms : Z)
| ClearTimeout (k : nat)
| Unhandled.

(** Who awaits [initiateWebRTCBridge]: the webhook route, inside its [try]
    and before its [res.sendStatus(200)], or the socket handler, with
    nothing around it. *)
Inductive caller : Type := FromWebhook (req : nat) | FromSocket.

(** The [await]s of [initiateWebRTCBridge], with the locals still live. *)
Inductive bridge_point : Type :=
| AtSetRemoteBrowser                      (* line 388 *)
| AtSetRemoteProvider (pc : peer)         (* line 407 *)
| AtTrackWait (pc : peer)                 (* line 420 *)
| AtCreateAnswerBrowser                   (* line 428 *)
| AtSetLocalBrowser (browserAnswer : string)   (* line 429 *)
| AtCreateAnswerProvider                  (* line 433 *)
| AtSetLocalProvider (waAnswer : string)  (* line 434 *)
| AtPreAccept (finalSdp : string).        (* line 439 *)

Inductive task : Type :=
| Bridge (pt : bridge_point) (who : caller)
| AcceptTimer (finalSdp : string)         (* line 442, the timer callback *)
| AcceptCall                              (* line 443 *)
| InitiateCall (phoneNumber : jsval)      (* line 164 *)
| RejectLog (callId : jsval)              (* line 205 *)
| TerminateLog (callId : jsval)           (* line 211 *)
| RejectOutbound (callId : jsval)         (* line 219 *)
| TerminateOutbound (callId : jsval).     (* line 232 *)

Inductive engine_outcome : Type :=
| Settled
| Answered (sdp : string)
| Failed.

Inductive input : Type :=
| BrowserOffer (sock : socket) (sdp : jsval)
| BrowserCandidate (candidate : jsval)
| RejectCallEv (id : jsval)
| TerminateCallEv (id : jsval)
| RejectOutboundCall
| TerminateOutboundCall
| WebhookPost (req : nat) (body : jsval)
| InitiateCallPost (req : nat) (body : jsval)
| AxiosDone (k : nat) (r : axios_outcome) (now : Z)
| EngineDone (k : nat) (r : engine_outcome)
| TimerFired (k : nat)
| PeerTrack (pc : peer) (streams0 : option stream)
| PeerIceCandidate (pc : peer) (candidate : jsval).

(** The promise of lines 397-405, one per provider-side peer. *)
Inductive promise_state : Type := Waiting | Fulfilled | Rejected.

Inductive peer_role : Type :=
| BrowserSide
| ProviderSide (timer : nat) (wait : promise_state).

Record server : Type := mkServer {
  globals : session;
  pending : list (nat * task);
  peers : list (peer * peer_role);
  nextId : nat
}.

Definition server_initial : server := mkServer session_initial [] [] 0.

Definition with_globals (g : session) (c : server) : server :=
  mkServer g (pending c) (peers c) (nextId c).

Definition with_pending (l : list (nat * task)) (c : server) : server :=
  mkServer (globals c) l (peers c) (nextId c).

Definition with_peers (l : list (peer * peer_role)) (c : server) : server :=
  mkServer (globals c) (pending c) l (nextId c).

Definition result : Type := (server * list effect)%type.

Fixpoint take (k : nat) (l : list (nat * task))
  : option (task * list (nat * task)) :=
  match l with
  | [] => None
  | (k', t) :: rest =>
      if Nat.eqb k k' then Some (t, rest)
      else match take k rest with
           | Some (t', rest') => Some (t', (k', t) :: rest')
           | None => None
           end
  end.

Fixpoint role_of (pc : peer) (l : list (peer * peer_role)) : option peer_role :=
  match l with
  | [] => None
  | (p, r) :: rest => if Nat.eqb pc p then Some r else role_of pc rest
  end.

Fixpoint set_role (pc : peer) (r : peer_role) (l : list (peer * peer_role))
  : list (peer * peer_role) :=
  match l with
  | [] => []
  | (p, r') :: rest =>
      if Nat.eqb pc p then (p, r) :: rest else (p, r') :: set_role pc r rest
  end.

(** The provider-side peer whose track timer is [k] and still armed. *)
Fixpoint armed_timer (k : nat) (l : list (peer * peer_role)) : option peer :=
  match l with
  | [] => None
  | (p, ProviderSide t Waiting) :: rest =>
      if Nat.eqb k t then Some p else armed_timer k rest
  | _ :: rest => armed_timer k rest
  end.

(** The bridge attempt suspended on the track promise of [pc], if any. *)
Fixpoint take_waiter (pc : peer) (l : list (nat * task))
  : option (caller * list (nat * task)) :=
  match l with
  | [] => None
  | (k, Bridge (AtTrackWait p) who) :: rest =>
      if Nat.eqb pc p then Some (who, rest)
      else match take_waiter pc rest with
           | Some (w, rest') => Some (w, (k, Bridge (AtTrackWait p) who) :: rest')
           | None => None
           end
  | kt :: rest =>
      match take_waiter pc rest with
      | Some (w, rest') => Some (w, kt :: rest')
      | None => None
      end
  end.

(** Suspend the running function as [t]; [request] is what it started. *)
Definition await (t : task) (request : nat -> list effect) (c : server)
  : result :=
  let k := nextId c in
  (mkServer (globals c) ((k, t) :: pending c) (peers c) (S k), request k).

(** How the caller of the bridge goes on when the bridge returns ... *)
Definition finish (who : caller) : list effect :=
  match who with
  | FromWebhook req => [SendStatus req 200]
  | FromSocket => []
  end.

(** ... and when it throws: the webhook route's [catch] answers 500, the
    socket handler's promise rejects with nobody listening. *)
Definition fail (who : caller) : list effect :=
  match who with
  | FromWebhook req => [SendStatus req 500]
  | FromSocket => [Unhandled]
  end.

(* ===================================================================== *)
(** ** initiateWebRTCBridge (lines 370-455) *)
(* ===================================================================== *)

Definition is_some {A : Type} (o : option A) : bool :=
  match o with Some _ => true | None => false end.

(** [s?.getAudioTracks()] *)
Definition audioTracks (s : option stream) : list track :=
  match s with
  | Some l => filter audio l
  | None => []
  end.

(** [tracks.forEach((track) => pc.addTrack(track, ...))]; [None] is the
    TypeError of the first call when [pc] is [null]. *)
Definition forward (pc : option peer) (tracks : list track)
  : option (list effect) :=
  match tracks, pc with
  | [], _ => Some []
  | _ :: _, Some p => Some (map (AddTrack p) tracks)
  | _ :: _, None => None
  end.

(** Lines 371-391.  The boolean tells whether the function returned (the
    guard of line 371) rather than suspended. *)
Definition initiateWebRTCBridge (who : caller) (c : server) : result * bool :=
  let g := globals c in
  if negb (truthy (browserOfferSdp g))
     || negb (truthy (whatsappOfferSdp g))
     || negb (is_some (browserSocket g))
  then ((c, []), true)
  else
    let pc := nextId c in
    let c1 := mkServer (with_browserPeer pc g) (pending c)
                ((pc, BrowserSide) :: peers c) (S pc) in
    let '(c2, fx) :=
      await (Bridge AtSetRemoteBrowser who)
        (fun k => [SetRemoteDescription k pc (browserOfferSdp g)]) c1 in
    ((c2, NewPeer pc :: fx), false).

(** Lines 395-410: the provider-side peer, its track promise and timer. *)
Definition bridge_provider_peer (who : caller) (c : server) : result :=
  let pc := nextId c in
  let timer := S pc in
  let g := with_whatsappPc pc (globals c) in
  let c1 := mkServer g (pending c)
              ((pc, ProviderSide timer Waiting) :: peers c) (S (S pc)) in
  let '(c2, fx) :=
    await (Bridge (AtSetRemoteProvider pc) who)
      (fun k => [SetRemoteDescription k pc (whatsappOfferSdp g)]) c1 in
  (c2, NewPeer pc :: SetTimeout timer 10000 :: fx).

(** Lines 423-428. *)
Definition bridge_after_track (who : caller) (c : server) : result :=
  let g := globals c in
  match forward (browserPc g) (audioTracks (whatsappStream g)) with
  | None => (c, fail who)
  | Some fx1 =>
      match browserPc g with
      | None => (c, fx1 ++ fail who)%list
      | Some pc =>
          let '(c', fx2) :=
            await (Bridge AtCreateAnswerBrowser who)
              (fun k => [CreateAnswer k pc]) c in
          (c', fx1 ++ fx2)%list
      end
  end.

(** Lines 414-420. *)
Definition bridge_forward_browser (pc : peer) (who : caller) (c : server)
  : result :=
  let g := globals c in
  match forward (whatsappPc g) (audioTracks (browserStream g)) with
  | None => (c, fail who)
  | Some fx1 =>
      match role_of pc (peers c) with
      | Some (ProviderSide _ Fulfilled) =>
          let '(c', fx2) := bridge_after_track who c in (c', fx1 ++ fx2)%list
      | Some (ProviderSide _ Rejected) => (c, fx1 ++ fail who)%list
      | _ =>
          let '(c', fx2) :=
            await (Bridge (AtTrackWait pc) who) (fun _ => []) c in
          (c', fx1 ++ fx2)%list
      end
  end.

(** Line 429. *)
Definition bridge_set_local_browser (sdp : string) (who : caller) (c : server)
  : result :=
  match browserPc (globals c) with
  | None => (c, fail who)
  | Some pc =>
      await (Bridge (AtSetLocalBrowser sdp) who)
        (fun k => [SetLocalDescription k pc sdp]) c
  end.

(** Lines 430-433. *)
Definition bridge_answer_browser (sdp : string) (who : caller) (c : server)
  : result :=
  match browserSocket (globals c) with
  | None => (c, fail who)
  | Some sock =>
      let sent := SocketEmit sock "browser-answer" (JStr sdp) in
      match whatsappPc (globals c) with
      | None => (c, sent :: fail who)
      | Some pc =>
          let '(c', fx) :=
            await (Bridge AtCreateAnswerProvider who)
              (fun k => [CreateAnswer k pc]) c in
          (c', sent :: fx)
      end
  end.

(** Line 434. *)
Definition bridge_set_local_provider (sdp : string) (who : caller) (c : server)
  : result :=
  match whatsappPc (globals c) with
  | None => (c, fail who)
  | Some pc =>
      await (Bridge (AtSetLocalProvider sdp) who)
        (fun k => [SetLocalDescription k pc sdp]) c
  end.

(** Lines 435-439. *)
Definition bridge_pre_accept (waAnswer_sdp : string) (who : caller) (c : server)
  : result :=
  let final := finalWaSdp waAnswer_sdp in
  await (Bridge (AtPreAccept final) who)
    (fun k => [AxiosPost k (answerCallToWhatsApp.body
                              (currentCallId (globals c)) final "pre_accept")])
    c.

(** Lines 441-455. *)
Definition bridge_after_pre_accept (final : string) (who : caller)
    (r : axios_outcome) (c : server) : result :=
  match answerCallToWhatsApp.resume r with
  | Throw _ => (c, fail who)
  | Ret preAcceptSuccess =>
      let '(c1, fx) :=
        if truthy preAcceptSuccess
        then await (AcceptTimer final) (fun k => [SetTimeout k 1000]) c
        else (c, []) in
      (with_globals (clear_offers (globals c1)) c1, fx ++ finish who)%list
  end.

(** Line 443, when the timer of line 442 fires. *)
Definition accept_timer (final : string) (c : server) : result :=
  await AcceptCall
    (fun k => [AxiosPost k (answerCallToWhatsApp.body
                              (currentCallId (globals c)) final "accept")])
    c.

(** Lines 444-446. *)
Definition after_accept (r : axios_outcome) (c : server) : result :=
  match answerCallToWhatsApp.resume r with
  | Throw _ => (c, [Unhandled])
  | Ret acceptSuccess =>
      match browserSocket (globals c) with
      | Some sock =>
          if truthy acceptSuccess
          then (c, [SocketEmit sock "start-browser-timer" JUndefined])
          else (c, [])
      | None => (c, [])
      end
  end.

(** Resuming the bridge when a peer-engine promise settles.  [None]: the
    outcome is not one the awaited operation can have. *)
Definition bridge_engine (pt : bridge_point) (who : caller)
    (r : engine_outcome) (c : server) : option result :=
  match pt, r with
  | (AtSetRemoteBrowser | AtSetRemoteProvider _ | AtCreateAnswerBrowser
     | AtSetLocalBrowser _ | AtCreateAnswerProvider | AtSetLocalProvider _),
    Failed => Some (c, fail who)
  | AtSetRemoteBrowser, Settled => Some (bridge_provider_peer who c)
  | AtSetRemoteProvider pc, Settled => Some (bridge_forward_browser pc who c)
  | AtCreateAnswerBrowser, Answered sdp =>
      Some (bridge_set_local_browser sdp who c)
  | AtSetLocalBrowser sdp, Settled => Some (bridge_answer_browser sdp who c)
  | AtCreateAnswerProvider, Answered sdp =>
      Some (bridge_set_local_provider sdp who c)
  | AtSetLocalProvider sdp, Settled => Some (bridge_pre_accept sdp who c)
  | _, _ => None
  end.

(* ===================================================================== *)
(** ** Socket handlers (lines 150-238) *)
(* ===================================================================== *)

(** Lines 166-182, once [initiateWhatsAppCall] has returned [callResult]. *)
Definition after_initiate (callResult : jsval) (c : server) : result :=
  let g := globals c in
  if truthy (prop callResult "success") then
    let id := prop callResult "callId" in
    let o := outgoingCallState g in
    let o' := mkOutgoing (phoneNumber o) (callerName o) id ringing in
    (with_globals (with_outgoing (isOutgoingCall g) o' (with_currentCallId id g)) c,
     [IoEmit "outgoing-call-initiated"
        (JObj [("callId", id);
               ("phoneNumber", phoneNumber o');
               ("callerName", callerName o')])])
  else
    (with_globals (resetOutgoingCallState g) c,
     [IoEmit "webrtc-error" (JObj [("error", prop callResult "error")])]).

(** Lines 154-187. *)
Definition on_browser_offer (sock : socket) (sdp : jsval) (c : server)
  : result :=
  let g := with_browserOffer sdp sock (globals c) in
  let c1 := with_globals g c in
  match isOutgoingCall g, status (outgoingCallState g) with
  | true, waiting_for_sdp =>
      match initiateWhatsAppCall.start (phoneNumber (outgoingCallState g)) sdp with
      | inl body =>
          await (InitiateCall (phoneNumber (outgoingCallState g)))
            (fun k => [AxiosPost k body]) c1
      | inr (Ret callResult) => after_initiate callResult c1
      | inr (Throw _) => (c1, [Unhandled])
      end
  | _, _ => fst (initiateWebRTCBridge FromSocket c1)
  end.

(** Lines 190-201. *)
Definition on_browser_candidate (candidate : jsval) (c : server) : result :=
  match browserPc (globals c) with
  | None => (c, [])
  | Some pc => (c, [AddIceCandidate pc candidate])
  end.

(** Lines 222-226: the payload is read after the reset. *)
Definition reject_outbound_tail (c : server) : result :=
  let g := resetOutgoingCallState (globals c) in
  (with_globals g c,
   [IoEmit "outgoing-call-rejected"
      (JObj [("callId", callId (outgoingCallState g));
             ("phoneNumber", phoneNumber (outgoingCallState g))])]).

(** Lines 216-227. *)
Definition on_reject_outbound (c : server) : result :=
  let id := callId (outgoingCallState (globals c)) in
  if truthy id
  then await (RejectOutbound id) (fun k => [AxiosPost k (rejectCall.body id)]) c
  else reject_outbound_tail c.

(** Lines 235-236. *)
Definition terminate_outbound_tail (c : server) : result :=
  (with_globals (resetOutgoingCallState (globals c)) c,
   [IoEmit "call-ended" JUndefined]).

(** Lines 229-237. *)
Definition on_terminate_outbound (c : server) : result :=
  let id := callId (outgoingCallState (globals c)) in
  if truthy id
  then
    await (TerminateOutbound id)
      (fun k => [AxiosPost k (terminateCall.body id)]) c
  else terminate_outbound_tail c.

(* ===================================================================== *)
(** ** HTTP routes (lines 243-365) *)
(* ===================================================================== *)

(** [req.body?.entry?.[0]?.changes?.[0]] *)
Definition webhook_change (body : jsval) : jsval :=
  index0 (prop (index0 (prop body "entry")) "changes").

Definition webhook_call (body : jsval) : jsval :=
  index0 (prop (prop (webhook_change body) "value") "calls").

Definition webhook_contact (body : jsval) : jsval :=
  index0 (prop (prop (webhook_change body) "value") "contacts").

(** The test of line 252, negated. *)
Definition well_formed (body : jsval) : bool :=
  let call := webhook_call body in
  truthy call && truthy (prop call "id") && truthy (prop call "event").

(** Lines 260-279.  The log lines 267 and 275 convert the caller's number,
    and for an incoming call the caller's name before it, to strings; a
    conversion that throws takes the route to its [catch]. *)
Definition webhook_connect (req : nat) (call contact : jsval) (c : server)
  : result :=
  let id := prop call "id" in
  let g := with_whatsappOfferSdp (prop (prop call "session") "sdp") (globals c) in
  let o := outgoingCallState g in
  let answered := mkOutgoing (phoneNumber o) (callerName o) (callId o) connected in
  let callerName := js_or (prop (prop contact "profile") "name") (JStr "Unknown") in
  let callerNumber := js_or (prop contact "wa_id") (JStr "Unknown") in
  match
    interpolate (if is_ours g id then [callerNumber]
                 else [callerName; callerNumber])
  with
  | Throw _ => (with_globals g c, [SendStatus req 500])
  | Ret _ =>
      let '(g1, told) :=
        if is_ours g id then
          (with_outgoing (isOutgoingCall g) answered g,
           IoEmit "outgoing-call-connected"
             (JObj [("callId", id); ("phoneNumber", callerNumber);
                    ("callerName", callerName)]))
        else
          (g, IoEmit "call-is-coming"
                (JObj [("callId", id); ("callerName", callerName);
                       ("callerNumber", callerNumber)])) in
      let '((c1, fx), returned) :=
        initiateWebRTCBridge (FromWebhook req) (with_globals g1 c) in
      (c1, told :: fx ++ (if returned then [SendStatus req 200] else []))%list
  end.

(** Lines 295-303 and 305-313, which differ in the event name only.  The
    log lines 296 and 306 convert the call id to a string. *)
Definition webhook_outcome (name : string) (req : nat) (id : jsval) (c : server)
  : result :=
  let g := globals c in
  match interpolate [id] with
  | Throw _ => (c, [SendStatus req 500])
  | Ret _ =>
      if is_ours g id then
        let phoneNumber := phoneNumber (outgoingCallState g) in
        (with_globals (resetOutgoingCallState g) c,
         [IoEmit name (JObj [("callId", id); ("phoneNumber", phoneNumber)]);
          SendStatus req 200])
      else (c, [SendStatus req 200])
  end.

(** Lines 281-293.  The log line 282 converts the call id to a string; the
    log line 292, after the broadcast, the duration and the status of the
    call when both are truthy. *)
Definition webhook_terminate (req : nat) (call : jsval) (c : server) : result :=
  let g := globals c in
  let id := prop call "id" in
  match interpolate [id] with
  | Throw _ => (c, [SendStatus req 500])
  | Ret _ =>
      let g1 := if is_ours g id then resetOutgoingCallState g else g in
      let logged :=
        if truthy (prop call "duration") && truthy (prop call "status")
        then interpolate [prop call "duration"; prop call "status"]
        else Ret tt in
      (with_globals g1 c,
       [IoEmit "call-ended" JUndefined;
        SendStatus req (match logged with Ret _ => 200 | Throw _ => 500 end)])
  end.

(** Lines 243-324. *)
Definition on_webhook_post (req : nat) (body : jsval) (c : server) : result :=
  let call := webhook_call body in
  let contact := webhook_contact body in
  if negb (well_formed body) then (c, [SendStatus req 200])
  else
    let id := prop call "id" in
    let c1 := with_globals (with_currentCallId id (globals c)) c in
    let event := prop call "event" in
    if strict_eq event (JStr "connect") then webhook_connect req call contact c1
    else if strict_eq event (JStr "terminate") then webhook_terminate req call c1
    else if strict_eq event (JStr "reject") then
      webhook_outcome "outgoing-call-rejected" req id c1
    else if strict_eq event (JStr "timeout") then
      webhook_outcome "outgoing-call-timeout" req id c1
    else
      match interpolate [event] with
      | Ret _ => (c1, [SendStatus req 200])
      | Throw _ => (c1, [SendStatus req 500])
      end.

(** Lines 329-365. *)
Definition on_initiate_call (req : nat) (body : jsval) (c : server) : result :=
  let caught :=
    SendJson req 500
      (obj_failure (JStr "Internal server error while initiating call")) in
  match member body "phoneNumber" with
  | Throw _ => (c, [caught])
  | Ret phoneNumber =>
      let callerName := js_or (prop body "callerName") (JStr "Outgoing Call") in
      if negb (truthy phoneNumber) then
        (c, [SendJson req 400 (obj_failure (JStr "Phone number is required"))])
      else
        (with_globals
           (with_outgoing true
              (mkOutgoing phoneNumber callerName JNull waiting_for_sdp)
              (globals c)) c,
         [IoEmit "start-outgoing-call-webrtc"
            (JObj [("phoneNumber", phoneNumber); ("callerName", callerName)]);
          match to_string phoneNumber with
          | Ret number =>
              SendJson req 200
                (JObj [("success", JBool true);
                       ("message",
                        JStr ("Initiating call to " ++ number
                              ++ ". Waiting for WebRTC setup..."))])
          | Throw _ => caught
          end])
  end.

(* ===================================================================== *)
(** ** Peer callbacks and timers *)
(* ===================================================================== *)

(** Lines 377-380 ([BrowserSide]) and 399-404 ([ProviderSide]). *)
Definition on_peer_track (pc : peer) (streams0 : option stream) (c : server)
  : result :=
  match role_of pc (peers c) with
  | None => (c, [])
  | Some BrowserSide =>
      match streams0 with
      | None => (c, [Unhandled])
      | Some [] => (c, [])
      | Some tracks =>
          match browserStream (globals c) with
          | None => (c, [Unhandled])
          | Some s =>
              (with_globals
                 (with_browserStream
                    (Some (fold_left (fun acc t => addTrack t acc) tracks s))
                    (globals c)) c, [])
          end
      end
  | Some (ProviderSide timer wait) =>
      let c1 := with_globals (with_whatsappStream streams0 (globals c)) c in
      match wait with
      | Waiting =>
          let c2 := with_peers (set_role pc (ProviderSide timer Fulfilled) (peers c1)) c1 in
          match take_waiter pc (pending c2) with
          | Some (who, rest) =>
              let '(c3, fx) := bridge_after_track who (with_pending rest c2) in
              (c3, ClearTimeout timer :: fx)
          | None => (c2, [ClearTimeout timer])
          end
      | _ => (c1, [ClearTimeout timer])
      end
  end.

(** Lines 382-386. *)
Definition on_peer_ice (pc : peer) (candidate : jsval) (c : server) : result :=
  match role_of pc (peers c) with
  | Some BrowserSide =>
      if truthy candidate then
        match browserSocket (globals c) with
        | Some sock => (c, [SocketEmit sock "browser-candidate" candidate])
        | None => (c, [Unhandled])
        end
      else (c, [])
  | _ => (c, [])
  end.

(** Line 398: the track timer rejects the promise, which was still pending.
    Whoever awaits it at line 420 throws; with nobody awaiting it yet (or
    any more), the rejection has no handler. *)
Definition on_track_timeout (pc : peer) (timer : nat) (c : server) : result :=
  let c1 := with_peers (set_role pc (ProviderSide timer Rejected) (peers c)) c in
  match take_waiter pc (pending c1) with
  | Some (who, rest) => (with_pending rest c1, fail who)
  | None => (c1, [Unhandled])
  end.

(* ===================================================================== *)
(** ** The event loop *)
(* ===================================================================== *)

Definition on_axios (t : task) (r : axios_outcome) (now : Z) (c : server)
  : option result :=
  match t with
  | Bridge (AtPreAccept final) who => Some (bridge_after_pre_accept final who r c)
  | AcceptCall => Some (after_accept r c)
  | InitiateCall phoneNumber =>
      match initiateWhatsAppCall.resume phoneNumber r now with
      | Ret callResult => Some (after_initiate callResult c)
      | Throw _ => Some (c, [Unhandled])
      end
  | RejectLog id =>
      match rejectCall.resume id r with
      | Ret _ => Some (c, [])
      | Throw _ => Some (c, [Unhandled])
      end
  | TerminateLog id =>
      match terminateCall.resume id r with
      | Ret _ => Some (c, [])
      | Throw _ => Some (c, [Unhandled])
      end
  | RejectOutbound id =>
      match rejectCall.resume id r with
      | Ret _ => Some (reject_outbound_tail c)
      | Throw _ => Some (c, [Unhandled])
      end
  | TerminateOutbound id =>
      match terminateCall.resume id r with
      | Ret _ => Some (terminate_outbound_tail c)
      | Throw _ => Some (c, [Unhandled])
      end
  | _ => None
  end.

Definition on_engine (t : task) (r : engine_outcome) (c : server)
  : option result :=
  match t with
  | Bridge pt who => bridge_engine pt who r c
  | _ => None
  end.

Definition on_timer (k : nat) (c : server) : result :=
  match take k (pending c) with
  | Some (AcceptTimer final, rest) => accept_timer final (with_pending rest c)
  | _ =>
      match armed_timer k (peers c) with
      | Some pc => on_track_timeout pc k c
      | None => (c, [])
      end
  end.

(** One turn of the event loop.  An input that answers no pending request
    (or answers it with an outcome of the wrong kind) changes nothing. *)
Definition step (c : server) (i : input) : result :=
  match i with
  | BrowserOffer sock sdp => on_browser_offer sock sdp c
  | BrowserCandidate candidate => on_browser_candidate candidate c
  | RejectCallEv id =>
      await (RejectLog id) (fun k => [AxiosPost k (rejectCall.body id)]) c
  | TerminateCallEv id =>
      await (TerminateLog id) (fun k => [AxiosPost k (terminateCall.body id)]) c
  | RejectOutboundCall => on_reject_outbound c
  | TerminateOutboundCall => on_terminate_outbound c
  | WebhookPost req body => on_webhook_post req body c
  | InitiateCallPost req body => on_initiate_call req body c
  | AxiosDone k r now =>
      match take k (pending c) with
      | Some (t, rest) =>
          match on_axios t r now (with_pending rest c) with
          | Some out => out
          | None => (c, [])
          end
      | None => (c, [])
      end
  | EngineDone k r =>
      match take k (pending c) with
      | Some (t, rest) =>
          match on_engine t r (with_pending rest c) with
          | Some out => out
          | None => (c, [])
          end
      | None => (c, [])
      end
  | TimerFired k => on_timer k c
  | PeerTrack pc streams0 => on_peer_track pc streams0 c
  | PeerIceCandidate pc candidate => on_peer_ice pc candidate c
  end.

(** A run: the configuration reached and, per input, what it produced. *)
Fixpoint run (c : server) (inputs : list input) : server * list (list effect) :=
  match inputs with
  | [] => (c, [])
  | i :: rest =>
      let '(c1, fx) := step c i in
      let '(c2, trace) := run c1 rest in
      (c2, fx :: trace)
  end.

Definition after (inputs : list input) : server := fst (run server_initial inputs).

(* ===================================================================== *)
(** ** Webhook verification (lines 73, 119-145) *)
(* ===================================================================== *)

(** Line 73: [process.env.VERIFY_TOKEN || "sandeep_bora"]; [env] is the
    environment variable, [None] when it is not set. *)
Definition VERIFY_TOKEN (env : option string) : string :=
  match env with
  | Some s => if s =? "" then "sandeep_bora" else s
  | None => "sandeep_bora"
  end.

(** What the GET route answers: 200 with a body, 403 or 400. *)
Inductive verification : Type :=
| Challenge (body : jsval)
| Forbidden
| BadRequest.

(** Lines 119-145; [query] is [req.query]. *)
Definition webhook_get (env : option string) (query : jsval) : verification :=
  let mode := prop query "hub.mode" in
  let token := prop query "hub.verify_token" in
  let challenge := prop query "hub.challenge" in
  if truthy mode && truthy token then
    if strict_eq mode (JStr "subscribe")
       && strict_eq token (JStr (VERIFY_TOKEN env))
    then Challenge challenge
    else Forbidden
  else BadRequest.

(* ===================================================================== *)
(** * Vocabulary of the statements *)
(* ===================================================================== *)




(** [n] calls of [initiateWebRTCBridge] in a row. *)
Fixpoint attempts (n : nat) (who : caller) (c : server) : server * list effect :=
  match n with
  | O => (c, [])
  | S n' =>
      let '((c1, fx), _) := initiateWebRTCBridge who c in
      let '(c2, fx') := attempts n' who c1 in
      (c2, fx ++ fx')%list
  end.

(** The one success signal: the request went through and the response says
    [success: true]. *)
(** The value converts to a string: it is not, and as an array does not
    hold, an object with a [toString] property of its own. *)
Definition printable (v : jsval) : bool :=
  match to_string v with Ret _ => true | Throw _ => false end.

Definition confirmed (r : axios_outcome) : bool :=
  match r with
  | Ret data => success_is_true data
  | Throw _ => false
  end.

(** The event of lines 223-226 with both fields [null]. *)
Definition rejected_with_nulls : effect :=
  IoEmit "outgoing-call-rejected"
    (JObj [("callId", JNull); ("phoneNumber", JNull)]).

(** The outbound record: lines 93-99. *)
Definition outbound (g : session) : bool * OutgoingCallState :=
  (isOutgoingCall g, outgoingCallState g).

(** A call id is stored only together with [ringing], and from then on the
    status is [ringing] or [connected] until the record is reset. *)
Definition outbound_inv (g : session) : Prop :=
  callId (outgoingCallState g) = JNull
  \/ status (outgoingCallState g) = ringing
  \/ status (outgoingCallState g) = connected.

(** What lines 252-317 do to the outbound record when no log line on the
    way throws. *)
Definition webhook_outbound (body : jsval) (g : session)
  : bool * OutgoingCallState :=
  let call := webhook_call body in
  let event := prop call "event" in
  let o := outgoingCallState g in
  if well_formed body && is_ours g (prop call "id") then
    if strict_eq event (JStr "connect") then
      (isOutgoingCall g,
       mkOutgoing (phoneNumber o) (callerName o) (callId o) connected)
    else if strict_eq event (JStr "terminate")
            || strict_eq event (JStr "reject")
            || strict_eq event (JStr "timeout")
    then (false, outgoing_idle)
    else outbound g
  else outbound g.

(** The provider rows of the transition table, in the words of the
    specification (section 4.4): a [connect] event matching the stored call
    id takes [ringing] to [connected]; a [terminate], [reject] or [timeout]
    event (matching the stored call id) takes any state back to [idle],
    by a reset of the record. *)
Inductive table_4_4 (event id : jsval)
  : bool * OutgoingCallState -> bool * OutgoingCallState -> Prop :=
| row_connect (o : OutgoingCallState) :
    event = JStr "connect" ->
    strict_eq (callId o) id = true ->
    status o = ringing ->
    table_4_4 event id
      (true, o)
      (true, mkOutgoing (phoneNumber o) (callerName o) (callId o) connected)
| row_end (o : OutgoingCallState) :
    event = JStr "terminate" \/ event = JStr "reject" \/ event = JStr "timeout" ->
    strict_eq (callId o) id = true ->
    table_4_4 event id (true, o) (false, outgoing_idle).

(** One webhook post, received in configuration [c], respects the table:
    the outbound record is unchanged or changes by a row, and it is
    unchanged when the event's id is not the one of an active outbound
    session. *)
Definition webhook_step_ok (c : server) (req : nat) (body : jsval) : Prop :=
  let c' := fst (step c (WebhookPost req body)) in
  let call := webhook_call body in
  (outbound (globals c') = outbound (globals c)
   \/ table_4_4 (prop call "event") (prop call "id")
        (outbound (globals c)) (outbound (globals c')))
  /\ (is_ours (globals c) (prop call "id") = false ->
      outbound (globals c') = outbound (globals c)).

(** The same for a sequence of posts, each received in the configuration
    the previous ones left. *)
Fixpoint webhooks_ok (c : server) (hooks : list (nat * jsval)) : Prop :=
  match hooks with
  | [] => True
  | (req, body) :: rest =>
      webhook_step_ok c req body
      /\ webhooks_ok (fst (step c (WebhookPost req body))) rest
  end.

(** What reaches the browser. *)
Definition to_browser (e : effect) : bool :=
  match e with
  | IoEmit _ _ | SocketEmit _ _ _ => true
  | _ => false
  end.

(** Every request to the provider, and the line that sends it. *)
Inductive post_origin (c : server) (i : input) (k : nat) (body : jsval) : Prop :=
| po_reject_call id :
    i = RejectCallEv id -> body = rejectCall.body id -> post_origin c i k body
| po_terminate_call id :
    i = TerminateCallEv id -> body = terminateCall.body id ->
    post_origin c i k body
| po_reject_outbound :
    i = RejectOutboundCall ->
    body = rejectCall.body (callId (outgoingCallState (globals c))) ->
    post_origin c i k body
| po_terminate_outbound :
    i = TerminateOutboundCall ->
    body = terminateCall.body (callId (outgoingCallState (globals c))) ->
    post_origin c i k body
| po_initiate sock sdp :
    i = BrowserOffer sock sdp ->
    body = initiateWhatsAppCall.body
             (phoneNumber (outgoingCallState (globals c))) sdp ->
    post_origin c i k body
| po_pre_accept k0 who rest sdp :
    i = EngineDone k0 Settled ->
    take k0 (pending c) = Some (Bridge (AtSetLocalProvider sdp) who, rest) ->
    k = nextId c ->
    body = answerCallToWhatsApp.body (currentCallId (globals c))
             (finalWaSdp sdp) "pre_accept" ->
    post_origin c i k body
| po_accept kt final rest :
    i = TimerFired kt ->
    take kt (pending c) = Some (AcceptTimer final, rest) ->
    k = nextId c ->
    body = answerCallToWhatsApp.body (currentCallId (globals c)) final "accept" ->
    post_origin c i k body.

(** One turn of a run: the input and what its handler produced. *)
Definition turn : Type := (input * list effect)%type.

(** The log of a run, latest turn first. *)
Fixpoint exec (c : server) (log : list turn) (inputs : list input)
  : server * list turn :=
  match inputs with
  | [] => (c, log)
  | i :: rest => exec (fst (step c i)) ((i, snd (step c i)) :: log) rest
  end.

(** Request [k] was a [pre_accept] carrying the SDP [final]. *)
Definition pre_accept_sent (k : nat) (final : string) (log : list turn) : Prop :=
  exists i fx id,
    In (i, fx) log
    /\ In (AxiosPost k (answerCallToWhatsApp.body id final "pre_accept")) fx.

(** Request [k] was an [accept]. *)
Definition accept_sent (k : nat) (log : list turn) : Prop :=
  exists i fx id final,
    In (i, fx) log
    /\ In (AxiosPost k (answerCallToWhatsApp.body id final "accept")) fx.

(** Timer [kt] was set, for 1000 ms, in the turn that received a confirming
    response to a [pre_accept] request carrying [final], sent before. *)
Definition accept_scheduled (kt : nat) (final : string) (log : list turn)
  : Prop :=
  exists later k r now fx earlier,
    log = (later ++ (AxiosDone k r now, fx) :: earlier)%list
    /\ confirmed r = true
    /\ In (SetTimeout kt 1000) fx
    /\ pre_accept_sent k final earlier.

(** What the suspended functions of [c] owe to the log. *)
Definition handshake_inv (c : server) (log : list turn) : Prop :=
  (forall k final who,
     In (k, Bridge (AtPreAccept final) who) (pending c) ->
     pre_accept_sent k final log)
  /\ (forall kt final,
        In (kt, AcceptTimer final) (pending c) -> accept_scheduled kt final log)
  /\ (forall k, In (k, AcceptCall) (pending c) -> accept_sent k log).

(** What the log itself says, turn by turn. *)
Definition handshake_log (log : list turn) : Prop :=
  forall later i fx earlier,
    log = (later ++ (i, fx) :: earlier)%list ->
    (forall k body,
       In (AxiosPost k body) fx ->
       prop body "action" = JStr "accept" ->
       exists kt final id,
         i = TimerFired kt
         /\ accept_scheduled kt final earlier
         /\ body = answerCallToWhatsApp.body id final "accept")
    /\ (forall sock payload,
          In (SocketEmit sock "start-browser-timer" payload) fx ->
          exists k r now,
            i = AxiosDone k r now
            /\ confirmed r = true
            /\ accept_sent k earlier).





(** A request to the provider with the given action and call id. *)
Definition is_post (action : string) (id : jsval) (e : effect) : bool :=
  match e with
  | AxiosPost _ body =>
      strict_eq (prop body "action") (JStr action)
      && strict_eq (prop body "call_id") id
  | _ => false
  end.

(** The id of the latest well-formed webhook event among [inputs]. *)
Fixpoint last_webhook_id (inputs : list input) (seen : jsval) : jsval :=
  match inputs with
  | [] => seen
  | WebhookPost _ body :: rest =>
      last_webhook_id rest
        (if well_formed body then prop (webhook_call body) "id" else seen)
  | _ :: rest => last_webhook_id rest seen
  end.

(** The test of line 160. *)
Definition waiting_outbound (g : session) : bool :=
  isOutgoingCall g
  && match status (outgoingCallState g) with
     | waiting_for_sdp => true
     | _ => false
     end.

(** The test of line 371, negated. *)
Definition bridge_ready (g : session) : bool :=
  truthy (browserOfferSdp g) && truthy (whatsappOfferSdp g)
  && is_some (browserSocket g).

Definition is_new_peer (e : effect) : bool :=
  match e with NewPeer _ => true | _ => false end.

(** A well-formed webhook event of type [connect], and the offer it brings. *)
Definition connect_event (body : jsval) : bool :=
  well_formed body
  && strict_eq (prop (webhook_call body) "event") (JStr "connect").

Definition offered_sdp (body : jsval) : jsval :=
  prop (prop (webhook_call body) "session") "sdp".

(** The caller's name and number of lines 262-263, under which a [connect]
    event is logged and announced. *)
Definition caller_name (body : jsval) : jsval :=
  js_or (prop (prop (webhook_contact body) "profile") "name") (JStr "Unknown").

Definition caller_number (body : jsval) : jsval :=
  js_or (prop (webhook_contact body) "wa_id") (JStr "Unknown").

(** Both convert to strings, so that the log lines 267 and 275 go through. *)
Definition caller_printable (body : jsval) : bool :=
  printable (caller_name body) && printable (caller_number body).

(** The event types lines 260-313 know. *)
Definition recognised (event : jsval) : bool :=
  strict_eq event (JStr "connect") || strict_eq event (JStr "terminate")
  || strict_eq event (JStr "reject") || strict_eq event (JStr "timeout").

(** The shapes the outbound record takes.  While [isOutgoingCall] holds the
    record names the callee and is either waiting for the browser's offer,
    without a call id, or ringing or connected under a call id.  While it
    does not hold the record is the initial one, or the one a late
    initiation response left behind: [ringing] under a call id, with no
    callee. *)
Definition outbound_wf (g : session) : Prop :=
  let o := outgoingCallState g in
  if isOutgoingCall g then
    truthy (phoneNumber o) = true /\ truthy (callerName o) = true
    /\ ((status o = waiting_for_sdp /\ callId o = JNull)
        \/ ((status o = ringing \/ status o = connected)
            /\ truthy (callId o) = true))
  else
    phoneNumber o = JNull /\ callerName o = JNull
    /\ ((status o = idle /\ callId o = JNull)
        \/ (status o = ringing /\ truthy (callId o) = true)).

(** The writes to the outbound record: none, the reset of lines 104-113,
    the request of lines 340-346, lines 169-170, line 268. *)
Inductive outbound_write (g g' : session) : Prop :=
| ow_same : outbound g' = outbound g -> outbound_write g g'
| ow_reset : outbound g' = (false, outgoing_idle) -> outbound_write g g'
| ow_request (phone name : jsval) :
    truthy phone = true -> truthy name = true ->
    outbound g' = (true, mkOutgoing phone name JNull waiting_for_sdp) ->
    outbound_write g g'
| ow_ringing (id : jsval) :
    truthy id = true ->
    outbound g'
    = (isOutgoingCall g,
       mkOutgoing (phoneNumber (outgoingCallState g))
         (callerName (outgoingCallState g)) id ringing) ->
    outbound_write g g'
| ow_connected :
    isOutgoingCall g = true ->
    truthy (callId (outgoingCallState g)) = true ->
    outbound g'
    = (true,
       mkOutgoing (phoneNumber (outgoingCallState g))
         (callerName (outgoingCallState g))
         (callId (outgoingCallState g)) connected) ->
    outbound_write g g'.

(** A handle that is set in [g] is set in [g']. *)
Definition handles_kept (g g' : session) : Prop :=
  (is_some (browserPc g) = true -> is_some (browserPc g') = true)
  /\ (is_some (browserStream g) = true -> is_some (browserStream g') = true)
  /\ (is_some (whatsappPc g) = true -> is_some (whatsappPc g') = true)
  /\ (is_some (browserSocket g) = true -> is_some (browserSocket g') = true).



Definition count {A : Type} (f : A -> bool) (l : list A) : nat :=
  List.length (filter f l).

(** A bridge attempt the webhook request [req] is waiting on. *)
Definition awaits_for (req : nat) (kt : nat * task) : bool :=
  match snd kt with
  | Bridge _ (FromWebhook r) => Nat.eqb r req
  | _ => false
  end.

(** A status answered to the webhook request [req]. *)
Definition is_ack (req : nat) (e : effect) : bool :=
  match e with
  | SendStatus r _ => Nat.eqb r req
  | _ => false
  end.

Definition is_post_for (req : nat) (i : input) : bool :=
  match i with
  | WebhookPost r _ => Nat.eqb r req
  | _ => false
  end.

(** The [await]s of lines 428-429, behind the track wait, and those of
    lines 433-434, behind the browser's answer. *)
Definition after_track (pt : bridge_point) : bool :=
  match pt with
  | AtCreateAnswerBrowser | AtSetLocalBrowser _ => true
  | _ => false
  end.

Definition after_answer (pt : bridge_point) : bool :=
  match pt with
  | AtCreateAnswerProvider | AtSetLocalProvider _ => true
  | _ => false
  end.

(** A turn in which a provider-side peer delivered a track (line 400 is the
    only [clearTimeout] of the program). *)
Definition provider_track (t : turn) : Prop :=
  exists pc s timer, fst t = PeerTrack pc s /\ In (ClearTimeout timer) (snd t).

Definition track_seen (log : list turn) : Prop :=
  exists t, In t log /\ provider_track t.

(** The browser was sent an answer, in a turn that came after a track. *)
Definition browser_answered (log : list turn) : Prop :=
  exists later i fx earlier sock sdp,
    log = (later ++ (i, fx) :: earlier)%list
    /\ In (SocketEmit sock "browser-answer" sdp) fx
    /\ track_seen earlier.

Definition order_inv (c : server) (log : list turn) : Prop :=
  (forall pc t, In (pc, ProviderSide t Fulfilled) (peers c) -> track_seen log)
  /\ (forall k pt who,
        In (k, Bridge pt who) (pending c) -> after_track pt = true ->
        track_seen log)
  /\ (forall k pt who,
        In (k, Bridge pt who) (pending c) -> after_answer pt = true ->
        browser_answered log).

Definition order_log (log : list turn) : Prop :=
  forall later i fx earlier,
    log = (later ++ (i, fx) :: earlier)%list ->
    (forall sock sdp,
       In (SocketEmit sock "browser-answer" sdp) fx -> track_seen earlier)
    /\ (forall k body,
          In (AxiosPost k body) fx ->
          prop body "action" = JStr "pre_accept" ->
          browser_answered earlier).

(** The input resumes a bridge attempt suspended at a point of kind [f]. *)
Definition resumes (c : server) (f : bridge_point -> bool) : Prop :=
  exists k0 pt0 who0 rest,
    take k0 (pending c) = Some (Bridge pt0 who0, rest) /\ f pt0 = true.

(** The suspended functions of a bridge attempt and of its handshake. *)
Definition bridging (t : task) : bool :=
  match t with
  | Bridge _ _ | AcceptTimer _ | AcceptCall => true
  | _ => false
  end.

(** [currentCallId] is truthy, or no provider offer is stored and no bridge
    attempt is under way. *)
Definition call_known (c : server) : Prop :=
  truthy (currentCallId (globals c)) = true
  \/ (truthy (whatsappOfferSdp (globals c)) = false
      /\ forall k t, In (k, t) (pending c) -> bridging t = false).

(** Every [pre_accept] and [accept] request of the log names a call. *)
Definition ids_known (log : list turn) : Prop :=
  forall i fx k body,
    In (i, fx) log -> In (AxiosPost k body) fx ->
    prop body "action" = JStr "pre_accept" \/ prop body "action" = JStr "accept" ->
    truthy (prop body "call_id") = true.

(** The [await]s from line 407 on, where the provider-side peer exists. *)
Definition provider_stage (pt : bridge_point) : bool :=
  match pt with AtSetRemoteBrowser => false | _ => true end.

(** The variables the rest of the attempt dereferences are set. *)
Definition ready (pt : bridge_point) (g : session) : Prop :=
  is_some (browserPc g) = true
  /\ is_some (browserStream g) = true
  /\ is_some (browserSocket g) = true
  /\ (provider_stage pt = true -> is_some (whatsappPc g) = true).

Definition handles_ready (c : server) : Prop :=
  forall k pt who, In (k, Bridge pt who) (pending c) -> ready pt (globals c).

(** Once a peer exists, so do the variables its callbacks dereference. *)
Definition peers_ready (c : server) : Prop :=
  peers c <> [] ->
  is_some (browserPc (globals c)) = true
  /\ is_some (browserStream (globals c)) = true
  /\ is_some (browserSocket (globals c)) = true.

(** An exception nobody catches, or the 500 of the webhook route's
    [catch]. *)
Definition failure (e : effect) : bool :=
  match e with
  | Unhandled => true
  | SendStatus _ code => (code =? 500)%Z
  | _ => false
  end.

(** Every value of a webhook event that a log line of the route may convert
    to a string does convert. *)
Definition webhook_printable (body : jsval) : bool :=
  forallb printable
    [caller_name body; caller_number body;
     prop (webhook_call body) "id"; prop (webhook_call body) "event";
     prop (webhook_call body) "duration"; prop (webhook_call body) "status"].

(** The suspended caller of [rejectCall] or [terminateCall], with the call
    id it passed. *)
Definition hangup_id (t : task) : option jsval :=
  match t with
  | RejectLog id | TerminateLog id | RejectOutbound id | TerminateOutbound id =>
      Some id
  | _ => None
  end.

(** What can make a turn fail.  From the peer engine: a promise a bridge
    attempt awaits rejects; the 10-second timer of a provider-side peer
    fires while its track promise is still pending (and the timer is not
    one that carries an [accept]); the provider-side [setRemoteDescription]
    resolves after the track wait has timed out; a browser-side peer
    delivers a track event without a stream.  From a log line: a webhook
    event holds a value that does not convert to a string; the response to a
    [reject] or [terminate] request arrives whose call id does not. *)
Definition failure_cause (c : server) (i : input) : Prop :=
  (exists k pt who rest,
     i = EngineDone k Failed
     /\ take k (pending c) = Some (Bridge pt who, rest))
  \/ (exists k pc,
        i = TimerFired k
        /\ armed_timer k (peers c) = Some pc
        /\ forall final rest,
             take k (pending c) <> Some (AcceptTimer final, rest))
  \/ (exists k pc who rest timer,
        i = EngineDone k Settled
        /\ take k (pending c) = Some (Bridge (AtSetRemoteProvider pc) who, rest)
        /\ role_of pc (peers c) = Some (ProviderSide timer Rejected))
  \/ (exists pc,
        i = PeerTrack pc None /\ role_of pc (peers c) = Some BrowserSide)
  \/ (exists req body,
        i = WebhookPost req body
        /\ well_formed body = true
        /\ webhook_printable body = false)
  \/ (exists k r now t rest id,
        i = AxiosDone k r now
        /\ take k (pending c) = Some (t, rest)
        /\ hangup_id t = Some id
        /\ printable id = false).

(* ===================================================================== *)
(** * Sample traffic *)
(* ===================================================================== *)

(** A webhook body with one call event, as the provider posts it. *)
Definition webhook_body (id event : string) (session : jsval) : jsval :=
  JObj [("entry",
         JArr [JObj [("changes",
           JArr [JObj [("value",
             JObj [("calls",
               JArr [JObj [("id", JStr id); ("event", JStr event);
                           ("session", session)]])])]])]])].

(** Two responses of the provider: a confirmation and a refusal. *)
Definition says_success : axios_outcome := Ret (JObj [("success", JBool true)]).
Definition says_failure : axios_outcome := Ret (JObj [("success", JBool false)]).

(** An inbound call "A": the provider's offer, the browser's offer, both
    peers set up, the provider's track, both answers; the last input makes
    the server send [pre_accept] as request 10. *)
Definition inbound_to_pre_accept : list input :=
  [WebhookPost 0 (webhook_body "A" "connect" (JObj [("sdp", JStr "provider offer")]));
   BrowserOffer 7 (JStr "browser offer");
   EngineDone 1 Settled;
   EngineDone 4 Settled;
   PeerTrack 2 (Some [mkTrack 1 true]);
   EngineDone 6 (Answered "browser answer");
   EngineDone 7 Settled;
   EngineDone 8 (Answered "a=setup:actpass");
   EngineDone 9 Settled].


(** A value as [JSON.parse] gives it for [{"toString": null}]: converting
    it to a string throws a [TypeError]. *)
Definition no_string : jsval := JObj [("toString", JNull)].

(** A [connect] event for call "A" whose first contact has such a value for
    [wa_id]; the entries are keyed by ["0"] in an object instead of being
    listed in an array. *)
Definition connect_no_string : jsval :=
  JObj [("entry",
         JObj [("0",
           JObj [("changes",
             JArr [JObj [("value",
               JObj [("calls",
                      JArr [JObj [("id", JStr "A"); ("event", JStr "connect");
                                  ("session",
                                   JObj [("sdp", JStr "provider offer")])]]);
                     ("contacts", JArr [JObj [("wa_id", no_string)]])])]])])])].

(** A [terminate] event for call "B" whose entry, change and call are each
    the property ["0"] of an object instead of the first element of an
    array. *)
Definition terminate_keyed : jsval :=
  JObj [("entry",
         JObj [("0",
           JObj [("changes",
             JObj [("0",
               JObj [("value",
                 JObj [("calls",
                   JObj [("0", JObj [("id", JStr "B");
                                     ("event", JStr "terminate")])])])])])])])].

(** An outbound call, placed and ringing under the call id "B". *)
Definition outbound_ringing : list input :=
  [InitiateCallPost 0 (JObj [("phoneNumber", JStr "15551234567")]);
   BrowserOffer 7 (JStr "browser offer");
   AxiosDone 0 (Ret (JObj [("success", JBool true); ("call_id", JStr "B")])) 0].

(** The outbound call "B" of [outbound_ringing], answered by the provider
    (which starts a bridge attempt): the server now holds both offers, a
    browser-side peer and a socket. *)
Definition outbound_answered : list input :=
  (outbound_ringing
   ++ [WebhookPost 1 (webhook_body "B" "connect" (JObj [("sdp", JStr "provider offer")]))])%list.

(** An inbound call whose provider side never delivers a track; timer 3 is
    the 10-second timer of the attempt.  In the first run the browser's
    offer arrives last (the socket handler awaits the bridge), in the
    second the provider's (the webhook route awaits it). *)
Definition silent_provider_socket : list input :=
  [WebhookPost 0 (webhook_body "A" "connect" (JObj [("sdp", JStr "provider offer")]));
   BrowserOffer 7 (JStr "browser offer");
   EngineDone 1 Settled;
   EngineDone 4 Settled].

Definition silent_provider_webhook : list input :=
  [BrowserOffer 7 (JStr "browser offer");
   WebhookPost 0 (webhook_body "A" "connect" (JObj [("sdp", JStr "provider offer")]));
   EngineDone 1 Settled;
   EngineDone 4 Settled].

(** The inbound call "A" of [inbound_to_pre_accept]; the provider confirms
    the [pre_accept], and within the second before the timer fires a
    webhook event about another call, "B", arrives. *)
Definition call_id_race : list input :=
  (inbound_to_pre_accept
   ++ [AxiosDone 10 says_success 0;
       WebhookPost 1 (webhook_body "B" "terminate" JUndefined);
       TimerFired 11])%list.

(** The provider announces call "A" before the browser has made an offer;
    an outbound call is then placed and rings as "B"; a further offer from
    the browser starts a bridge attempt on the offer stored for "A". *)
Definition offer_after_outbound : list input :=
  [WebhookPost 0 (webhook_body "A" "connect" (JObj [("sdp", JStr "provider offer")]));
   InitiateCallPost 1 (JObj [("phoneNumber", JStr "15551234567")]);
   BrowserOffer 7 (JStr "browser offer");
   AxiosDone 0 (Ret (JObj [("success", JBool true); ("call_id", JStr "B")])) 0;
   BrowserOffer 7 (JStr "second offer");
   EngineDone 2 Settled;
   EngineDone 5 Settled;
   PeerTrack 3 (Some [mkTrack 1 true]);
   EngineDone 7 (Answered "browser answer");
   EngineDone 8 Settled;
   EngineDone 9 (Answered "a=setup:actpass")].

(* ===================================================================== *)
(** * Properties *)
(* ===================================================================== *)

(** ** The SDP rewrite *)

Lemma length_app (a b : string) :
  String.length (a ++ b) = String.length a + String.length b.
Proof.
  induction a as [|ch a IH]; simpl; [reflexivity | now rewrite IH].
Qed.



Lemma skip_app (p t : string) : skip (String.length p) (p ++ t) = t.
Proof. induction p as [|ch p IH]; simpl; [reflexivity | exact IH]. Qed.



(** ** The guard of the bridge attempt *)

(** C3: with a [null] browser offer, a [null] provider offer or no socket
    bound, [initiateWebRTCBridge] returns at once: same configuration (no
    peer created, no variable written, nothing suspended) and no effect;
    and so does any number of calls in a row. *)
Theorem C3_bridge_guard (who : caller) (c : server) (n : nat) :
  browserOfferSdp (globals c) = JNull
  \/ whatsappOfferSdp (globals c) = JNull
  \/ browserSocket (globals c) = None ->
  initiateWebRTCBridge who c = ((c, []), true)
  /\ attempts n who c = (c, []).
Proof.
  intros H.
  assert (E : initiateWebRTCBridge who c = ((c, []), true)).
  { unfold initiateWebRTCBridge.
    destruct H as [H | [H | H]]; rewrite H; cbn [truthy negb is_some orb].
    - reflexivity.
    - now rewrite orb_true_r.
    - now rewrite !orb_true_r. }
  split; [exact E|].
  induction n as [|n IH]; [reflexivity|].
  cbn [attempts]. rewrite E, IH. reflexivity.
Qed.

Lemma C3_bridge_guard_witness :
  (browserOfferSdp (globals (fst (step server_initial (BrowserOffer 7 (JStr "offer"))))) = JNull
   \/ whatsappOfferSdp (globals (fst (step server_initial (BrowserOffer 7 (JStr "offer"))))) = JNull
   \/ browserSocket (globals (fst (step server_initial (BrowserOffer 7 (JStr "offer"))))) = None)
  /\ attempts 3 FromSocket (fst (step server_initial (BrowserOffer 7 (JStr "offer"))))
     = (fst (step server_initial (BrowserOffer 7 (JStr "offer"))), []).
Proof.
  split.
  - right; left; reflexivity.
  - apply (C3_bridge_guard FromSocket
             (fst (step server_initial (BrowserOffer 7 (JStr "offer")))) 3).
    right; left; reflexivity.
Defined.

(** ** The provider client *)

Lemma answer_resume_total (r : axios_outcome) :
  answerCallToWhatsApp.resume r = Ret (JBool (confirmed r)).
Proof.
  destruct r as [data|e]; [|reflexivity].
  unfold answerCallToWhatsApp.resume. cbn [bind confirmed].
  now destruct (success_is_true data).
Qed.

Lemma interpolate_one (v : jsval) :
  if printable v then interpolate [v] = Ret tt
  else exists e, interpolate [v] = Throw e.
Proof.
  unfold printable. cbn [interpolate]. destruct (to_string v) as [text|e].
  - reflexivity.
  - exists e. reflexivity.
Qed.

Lemma reject_resume_total (id : jsval) (r : axios_outcome) :
  if printable id
  then rejectCall.resume id r
       = Ret (match r with Ret data => data | Throw e => obj_failure (message e) end)
  else exists e, rejectCall.resume id r = Throw e.
Proof.
  pose proof (interpolate_one id) as P. unfold rejectCall.resume.
  destruct (printable id).
  - rewrite P. now destruct r.
  - destruct P as [e P]. exists e. rewrite P. now destruct r.
Qed.

Lemma terminate_resume_total (id : jsval) (r : axios_outcome) :
  if printable id
  then terminateCall.resume id r
       = Ret (match r with Ret data => data | Throw e => obj_failure (message e) end)
  else exists e, terminateCall.resume id r = Throw e.
Proof.
  pose proof (interpolate_one id) as P. unfold terminateCall.resume.
  destruct (printable id).
  - rewrite P. now destruct r.
  - destruct P as [e P]. exists e. rewrite P. now destruct r.
Qed.

Lemma initiate_catch_failure (e : js_error) :
  exists msg, initiateWhatsAppCall.catch e = Ret (obj_failure msg).
Proof. unfold initiateWhatsAppCall.catch. eexists. reflexivity. Qed.

Lemma success_is_true_not_nullish (data : jsval) :
  success_is_true data = true -> nullish data = false.
Proof. destruct data; cbn; intros H; congruence. Qed.

Lemma initiate_resume_total (phone : jsval) (r : axios_outcome) (now : Z) :
  if confirmed r && printable phone
  then exists data,
         r = Ret data
         /\ initiateWhatsAppCall.resume phone r now
            = Ret (JObj [("success", JBool true);
                         ("callId", js_or (prop data "call_id")
                                      (JStr ("outgoing_" ++ decimal now)));
                         ("data", data)])
  else exists msg,
         initiateWhatsAppCall.resume phone r now = Ret (obj_failure msg).
Proof.
  destruct r as [data|e]; cbn [confirmed andb].
  - unfold initiateWhatsAppCall.resume, initiateWhatsAppCall.try_after, member.
    cbn [bind]. pose proof (interpolate_one phone) as P.
    destruct (success_is_true data) eqn:S; cbn [andb].
    + destruct (printable phone).
      * exists data. split; [reflexivity|].
        rewrite P. cbn [bind try_catch].
        rewrite (success_is_true_not_nullish _ S). reflexivity.
      * destruct P as [e P]. rewrite P. cbn [bind try_catch].
        apply initiate_catch_failure.
    + eexists. reflexivity.
  - apply initiate_catch_failure.
Qed.

(** A 200 response whose body carries no [success] field: [rejectCall] and
    [terminateCall] hand it back as it is; a failed request makes
    [answerCallToWhatsApp] return the bare boolean [false]; and a call id
    that is an object with a [toString] property of its own makes
    [rejectCall] throw, whatever the response. *)
Lemma C6_counterexample :
  rejectCall.resume (JStr "A") (Ret (JObj [("messaging_product", JStr "whatsapp")]))
  = Ret (JObj [("messaging_product", JStr "whatsapp")])
  /\ terminateCall.resume (JStr "A")
       (Ret (JObj [("messaging_product", JStr "whatsapp")]))
     = Ret (JObj [("messaging_product", JStr "whatsapp")])
  /\ confirmed (Ret (JObj [("messaging_product", JStr "whatsapp")])) = false
  /\ (forall msg, JObj [("messaging_product", JStr "whatsapp")] <> obj_failure msg)
  /\ answerCallToWhatsApp.resume (Throw (mkError (JStr "Network Error") JUndefined))
     = Ret (JBool false)
  /\ (forall msg, JBool false <> obj_failure msg)
  /\ rejectCall.resume (JObj [("toString", JNull)]) says_success
     = Throw (TypeError "Cannot convert object to primitive value").
Proof.
  repeat split; try reflexivity; intros msg H; discriminate H.
Qed.

(** C6 (amended): [initiateWhatsAppCall] and [answerCallToWhatsApp] never
    throw.  [initiateWhatsAppCall] returns [{success: true, callId, data}]
    exactly when the response says [success: true] and the callee converts
    to a string (line 488 logs it), and [{success: false, error}] in every
    other case, also when it fails before the request.
    [answerCallToWhatsApp] returns the boolean [true] exactly when the
    response says [success: true] and the boolean [false] otherwise.
    [rejectCall] and [terminateCall], given a call id that converts to a
    string, return the response body as it is whenever the request goes
    through, whatever it says, and [{success: false, error: error.message}]
    when it fails; given a call id that does not, they throw to their
    caller, whatever the response: the log line of the [try] block throws
    and so does the one of the [catch] block. *)
Theorem C6_provider_client (r : axios_outcome) (now : Z) (phone sdp id : jsval) :
  (if confirmed r && printable phone
   then exists data,
          r = Ret data
          /\ initiateWhatsAppCall.resume phone r now
             = Ret (JObj [("success", JBool true);
                          ("callId", js_or (prop data "call_id")
                                       (JStr ("outgoing_" ++ decimal now)));
                          ("data", data)])
   else exists msg,
          initiateWhatsAppCall.resume phone r now = Ret (obj_failure msg))
  /\ (initiateWhatsAppCall.start phone sdp
        = inl (initiateWhatsAppCall.body phone sdp)
      \/ exists msg, initiateWhatsAppCall.start phone sdp
                     = inr (Ret (obj_failure msg)))
  /\ answerCallToWhatsApp.resume r = Ret (JBool (confirmed r))
  /\ (if printable id
      then rejectCall.resume id r
           = Ret (match r with
                  | Ret data => data
                  | Throw e => obj_failure (message e)
                  end)
      else exists e, rejectCall.resume id r = Throw e)
  /\ (if printable id
      then terminateCall.resume id r
           = Ret (match r with
                  | Ret data => data
                  | Throw e => obj_failure (message e)
                  end)
      else exists e, terminateCall.resume id r = Throw e).
Proof.
  split; [apply initiate_resume_total|].
  split.
  { unfold initiateWhatsAppCall.start, initiateWhatsAppCall.try_before, member.
    destruct (nullish sdp); [right | left; reflexivity].
    eexists. reflexivity. }
  split; [apply answer_resume_total|].
  split; [apply reject_resume_total | apply terminate_resume_total].
Qed.

(** ** The end of a bridge attempt *)

(** The attempt of [inbound_to_pre_accept], whose [pre_accept] the provider
    turns down: both offers are [null] afterwards. *)
Lemma C7_counterexample :
  browserOfferSdp (globals (after inbound_to_pre_accept)) = JStr "browser offer"
  /\ whatsappOfferSdp (globals (after inbound_to_pre_accept)) = JStr "provider offer"
  /\ take 10 (pending (after inbound_to_pre_accept))
     = Some (Bridge (AtPreAccept "a=setup:active") FromSocket, [])
  /\ confirmed says_failure = false
  /\ browserOfferSdp
       (globals (fst (step (after inbound_to_pre_accept) (AxiosDone 10 says_failure 0))))
     = JNull
  /\ whatsappOfferSdp
       (globals (fst (step (after inbound_to_pre_accept) (AxiosDone 10 says_failure 0))))
     = JNull.
Proof. repeat split; vm_compute; reflexivity. Qed.

(** C7 (amended): when the response to [pre_accept] arrives, the attempt
    sets [browserOfferSdp] and [whatsappOfferSdp] to [null] whether the
    response confirms or not, and leaves every other session variable as it
    is (peers, streams, socket, [currentCallId], the outbound record).  The
    1000 ms timer for [accept] is set exactly when the response confirms;
    otherwise the attempt ends there. *)
Theorem C7_offers_cleared (c : server) (k : nat) (final : string)
    (who : caller) (rest : list (nat * task)) (r : axios_outcome) (now : Z) :
  take k (pending c) = Some (Bridge (AtPreAccept final) who, rest) ->
  step c (AxiosDone k r now)
  = (mkServer (clear_offers (globals c))
       (if confirmed r then (nextId c, AcceptTimer final) :: rest else rest)
       (peers c)
       (if confirmed r then S (nextId c) else nextId c),
     ((if confirmed r then [SetTimeout (nextId c) 1000] else []) ++ finish who)%list)
  /\ browserOfferSdp (clear_offers (globals c)) = JNull
  /\ whatsappOfferSdp (clear_offers (globals c)) = JNull.
Proof.
  intros H. split; [|split; reflexivity].
  unfold step. rewrite H. cbn [on_axios].
  unfold bridge_after_pre_accept. rewrite answer_resume_total. cbn [truthy].
  destruct (confirmed r); reflexivity.
Qed.

Lemma C7_offers_cleared_witness :
  take 10 (pending (after inbound_to_pre_accept))
  = Some (Bridge (AtPreAccept "a=setup:active") FromSocket, [])
  /\ globals (fst (step (after inbound_to_pre_accept) (AxiosDone 10 says_success 0)))
     = clear_offers (globals (after inbound_to_pre_accept)).
Proof.
  split; [vm_compute; reflexivity|].
  rewrite (proj1 (C7_offers_cleared (after inbound_to_pre_accept) 10
                    "a=setup:active" FromSocket [] says_success 0 eq_refl)).
  reflexivity.
Defined.

(** ** The browser rejects its outbound call *)

(** C9: every [outgoing-call-rejected] that the handling of
    [reject-outbound-call] emits carries [callId: null] and
    [phoneNumber: null], the record having just been reset.  It is emitted
    at once when no call id is stored, and otherwise when the reject request
    comes back, whatever its outcome and whatever the outbound record holds
    by then.  (Should the stored call id not convert to a string, the log
    line of [rejectCall] throws when the request comes back, and the handler
    ends there: nothing is reset and nothing emitted.) *)
Theorem C9_reject_outbound_payload (c : server) :
  step c RejectOutboundCall
  = (if truthy (callId (outgoingCallState (globals c)))
     then (mkServer (globals c)
             ((nextId c, RejectOutbound (callId (outgoingCallState (globals c))))
              :: pending c)
             (peers c) (S (nextId c)),
           [AxiosPost (nextId c)
              (rejectCall.body (callId (outgoingCallState (globals c))))])
     else (with_globals (resetOutgoingCallState (globals c)) c,
           [rejected_with_nulls]))
  /\ (forall k id rest r now,
        take k (pending c) = Some (RejectOutbound id, rest) ->
        step c (AxiosDone k r now)
        = if printable id
          then (with_globals (resetOutgoingCallState (globals c))
                  (with_pending rest c),
                [rejected_with_nulls])
          else (with_pending rest c, [Unhandled]))
  /\ (forall i payload,
        i = RejectOutboundCall
        \/ (exists k id rest r now,
              i = AxiosDone k r now
              /\ take k (pending c) = Some (RejectOutbound id, rest)) ->
        In (IoEmit "outgoing-call-rejected" payload) (snd (step c i)) ->
        payload = JObj [("callId", JNull); ("phoneNumber", JNull)]).
Proof.
  assert (A : step c RejectOutboundCall
              = (if truthy (callId (outgoingCallState (globals c)))
                 then (mkServer (globals c)
                         ((nextId c,
                           RejectOutbound (callId (outgoingCallState (globals c))))
                          :: pending c)
                         (peers c) (S (nextId c)),
                       [AxiosPost (nextId c)
                          (rejectCall.body (callId (outgoingCallState (globals c))))])
                 else (with_globals (resetOutgoingCallState (globals c)) c,
                       [rejected_with_nulls]))).
  { cbn [step]. unfold on_reject_outbound.
    destruct (truthy (callId (outgoingCallState (globals c)))); reflexivity. }
  assert (B : forall k id rest r now,
            take k (pending c) = Some (RejectOutbound id, rest) ->
            step c (AxiosDone k r now)
            = if printable id
              then (with_globals (resetOutgoingCallState (globals c))
                      (with_pending rest c),
                    [rejected_with_nulls])
              else (with_pending rest c, [Unhandled])).
  { intros k id rest r now H. unfold step. rewrite H. cbn [on_axios].
    pose proof (reject_resume_total id r) as R.
    destruct (printable id).
    - rewrite R. reflexivity.
    - destruct R as [e R]. rewrite R. reflexivity. }
  split; [exact A|]. split; [exact B|].
  intros i payload [-> | (k & id & rest & r & now & -> & T)] H.
  - rewrite A in H.
    destruct (truthy (callId (outgoingCallState (globals c))));
      cbn in H; destruct H as [H | []]; [discriminate H|].
    now injection H as <-.
  - rewrite (B _ _ _ r now T) in H.
    destruct (printable id); cbn in H; destruct H as [H | []];
      [|discriminate H].
    now injection H as <-.
Qed.

Lemma C9_reject_outbound_payload_witness :
  take 1 (pending (after (outbound_ringing ++ [RejectOutboundCall])))
  = Some (RejectOutbound (JStr "B"), [])
  /\ snd (step (after (outbound_ringing ++ [RejectOutboundCall]))
            (AxiosDone 1 says_success 0))
     = [rejected_with_nulls].
Proof.
  split; [vm_compute; reflexivity|].
  rewrite (proj1 (proj2 (C9_reject_outbound_payload
                           (after (outbound_ringing ++ [RejectOutboundCall]))))
             1 (JStr "B") [] says_success 0%Z eq_refl).
  reflexivity.
Defined.

(* ===================================================================== *)
(** ** Case analysis over one turn of the event loop *)
(* ===================================================================== *)

Ltac unfold_handlers :=
  unfold step, on_timer, on_axios, on_engine, bridge_engine, on_browser_offer,
    on_browser_candidate, on_reject_outbound, on_terminate_outbound,
    on_webhook_post, on_initiate_call, on_peer_track, on_peer_ice,
    on_track_timeout, webhook_connect, webhook_outcome, webhook_terminate,
    after_initiate, after_accept, accept_timer, bridge_after_pre_accept,
    bridge_pre_accept, bridge_set_local_provider, bridge_answer_browser,
    bridge_set_local_browser, bridge_forward_browser, bridge_after_track,
    bridge_provider_peer, initiateWebRTCBridge, reject_outbound_tail,
    terminate_outbound_tail, await.

Ltac unfold_all :=
  unfold_handlers;
  unfold initiateWhatsAppCall.start, initiateWhatsAppCall.try_before,
    initiateWhatsAppCall.catch, member, finish, fail;
  rewrite ?answer_resume_total.

Ltac break_match :=
  match goal with
  | |- context [match (match ?x with _ => _ end) with _ => _ end] =>
      destruct x eqn:?
  | |- context [match ?x with _ => _ end] => destruct x eqn:?
  end; cbn beta iota.

Lemma run_cons (c : server) (i : input) (rest : list input) :
  fst (run c (i :: rest)) = fst (run (fst (step c i)) rest).
Proof.
  cbn [run]. destruct (step c i) as [c1 fx]. cbn [fst].
  destruct (run c1 rest) as [c2 tr]. reflexivity.
Qed.

Lemma run_app (a b : list input) (c : server) :
  fst (run c (a ++ b)%list) = fst (run (fst (run c a)) b).
Proof.
  revert c; induction a as [|i a IH]; intros c; [reflexivity|].
  cbn [app]. rewrite !run_cons. apply IH.
Qed.

Lemma strict_eq_str (v : jsval) (s : string) :
  strict_eq v (JStr s) = true -> v = JStr s.
Proof.
  destruct v; cbn; try discriminate. intros H.
  apply String.eqb_eq in H. now subst.
Qed.

Lemma strict_eq_truthy (a b : jsval) :
  strict_eq a b = true -> truthy b = true -> a <> JNull.
Proof. intros E T ->. destruct b; cbn in *; discriminate. Qed.

Lemma strict_eq_printable (a b : jsval) :
  strict_eq a b = true -> printable b = true.
Proof.
  destruct a, b; cbn; try discriminate; intros _; unfold printable; cbn;
    repeat break_match; reflexivity.
Qed.

Lemma is_ours_printable (g : session) (id : jsval) :
  is_ours g id = true -> interpolate [id] = Ret tt.
Proof.
  unfold is_ours. intros O. apply andb_true_iff in O as [_ M].
  pose proof (interpolate_one id) as P.
  now rewrite (strict_eq_printable _ _ M) in P.
Qed.

(** ** The outbound record under provider events *)

Lemma step_outbound_inv (c : server) (i : input) :
  outbound_inv (globals c) -> outbound_inv (globals (fst (step c i))).
Proof.
  intros H. destruct i; unfold_handlers.
  all: repeat break_match; cbn; try exact H; unfold outbound_inv; cbn; auto.
Qed.

Lemma run_outbound_inv (inputs : list input) (c : server) :
  outbound_inv (globals c) -> outbound_inv (globals (fst (run c inputs))).
Proof.
  revert c; induction inputs as [|i rest IH]; intros c H; [exact H|].
  rewrite run_cons. apply IH, step_outbound_inv, H.
Qed.

Lemma step_webhook_outbound (c : server) (req : nat) (body : jsval) :
  outbound (globals (fst (step c (WebhookPost req body))))
  = webhook_outbound body (globals c)
  \/ outbound (globals (fst (step c (WebhookPost req body))))
     = outbound (globals c).
Proof.
  unfold webhook_outbound. unfold_handlers. unfold is_ours.
  destruct (well_formed body); cbn [negb andb]; [|now left].
  destruct (strict_eq (prop (webhook_call body) "event") (JStr "connect")).
  - cbn. destruct (isOutgoingCall (globals c)); cbn [andb].
    + destruct (strict_eq (callId (outgoingCallState (globals c)))
                  (prop (webhook_call body) "id"));
        repeat break_match; auto.
    + repeat break_match; auto.
  - cbn.
    destruct (isOutgoingCall (globals c)); cbn [andb];
      [destruct (strict_eq (callId (outgoingCallState (globals c)))
                   (prop (webhook_call body) "id"))|];
      repeat break_match; cbn in *; auto; try discriminate.
Qed.

Lemma webhook_step_ok_inv (c : server) (req : nat) (body : jsval) :
  outbound_inv (globals c) -> webhook_step_ok c req body.
Proof.
  intros Inv. unfold webhook_step_ok. cbn zeta.
  destruct (step_webhook_outbound c req body) as [-> | ->]; [|split; auto].
  unfold webhook_outbound.
  destruct (well_formed body) eqn:W; cbn [andb]; [|split; auto].
  destruct (is_ours (globals c) (prop (webhook_call body) "id")) eqn:O;
    [|split; auto].
  split; [|discriminate].
  unfold is_ours in O. apply andb_true_iff in O as [F M].
  unfold well_formed in W. apply andb_true_iff in W as [W _].
  apply andb_true_iff in W as [_ T].
  pose proof (strict_eq_truthy _ _ M T) as NN.
  unfold outbound. rewrite F.
  destruct (strict_eq (prop (webhook_call body) "event") (JStr "connect")) eqn:E1.
  - apply strict_eq_str in E1.
    destruct Inv as [N | [R | C]]; [contradiction | |].
    + right. now apply row_connect.
    + left. f_equal.
      destruct (outgoingCallState (globals c)); cbn in *; now subst.
  - destruct (strict_eq (prop (webhook_call body) "event") (JStr "terminate")) eqn:E2;
      [apply strict_eq_str in E2; right; apply row_end; auto|].
    destruct (strict_eq (prop (webhook_call body) "event") (JStr "reject")) eqn:E3;
      [apply strict_eq_str in E3; right; apply row_end; auto|].
    destruct (strict_eq (prop (webhook_call body) "event") (JStr "timeout")) eqn:E4;
      [apply strict_eq_str in E4; right; apply row_end; auto|].
    cbn [orb]. left. reflexivity.
Qed.

(** C4: from any configuration the server can reach, along any sequence of
    webhook posts, each post either leaves the outbound record
    ([isOutgoingCall], [outgoingCallState]) as it is or changes it by a row
    of the table of section 4.4; and a post whose call id is not the one of
    an active outbound session leaves it as it is. *)
Theorem C4_outbound_transitions (inputs : list input) (hooks : list (nat * jsval)) :
  webhooks_ok (after inputs) hooks.
Proof.
  assert (G : forall c, outbound_inv (globals c) -> webhooks_ok c hooks).
  { induction hooks as [|[req body] rest IH]; intros c Inv; [exact I|].
    split; [now apply webhook_step_ok_inv|].
    apply IH, step_outbound_inv, Inv. }
  apply G. unfold after. apply run_outbound_inv. now left.
Qed.

(** ** What a call-ending event resets *)

(** The provider then ends call "B": the outbound record goes back to its
    initial value while the offers, the peer, its stream and the socket
    stay as they were. *)
Lemma C5_counterexample :
  outbound (globals (after outbound_answered))
  = (true, mkOutgoing (JStr "15551234567") (JStr "Outgoing Call") (JStr "B") connected)
  /\ outbound (globals (fst (step (after outbound_answered)
                               (WebhookPost 2 (webhook_body "B" "terminate" JUndefined)))))
     = (false, outgoing_idle)
  /\ browserOfferSdp (globals (fst (step (after outbound_answered)
                                     (WebhookPost 2 (webhook_body "B" "terminate" JUndefined)))))
     = JStr "browser offer"
  /\ whatsappOfferSdp (globals (fst (step (after outbound_answered)
                                      (WebhookPost 2 (webhook_body "B" "terminate" JUndefined)))))
     = JStr "provider offer"
  /\ browserPc (globals (fst (step (after outbound_answered)
                               (WebhookPost 2 (webhook_body "B" "terminate" JUndefined)))))
     = Some 1
  /\ browserSocket (globals (fst (step (after outbound_answered)
                                   (WebhookPost 2 (webhook_body "B" "terminate" JUndefined)))))
     = Some 7.
Proof. repeat split; vm_compute; reflexivity. Qed.

(** C5 (amended): a well-formed [terminate], [reject] or [timeout] event
    stores its id in [currentCallId] and, when the id is the one of the
    active outbound session, resets the outbound record
    ([isOutgoingCall] and the four fields of [outgoingCallState]) together,
    in that one turn.  Nothing else changes: the two offers, the peers, the
    streams and the socket keep their values, and so do the suspended
    functions and the peers' callbacks. *)
Theorem C5_reset_scope (c : server) (req : nat) (body : jsval) :
  well_formed body = true ->
  prop (webhook_call body) "event" = JStr "terminate"
  \/ prop (webhook_call body) "event" = JStr "reject"
  \/ prop (webhook_call body) "event" = JStr "timeout" ->
  fst (step c (WebhookPost req body))
  = with_globals
      (let g := with_currentCallId (prop (webhook_call body) "id") (globals c) in
       if is_ours (globals c) (prop (webhook_call body) "id")
       then resetOutgoingCallState g else g) c
  /\ (forall g,
        isOutgoingCall (resetOutgoingCallState g) = false
        /\ outgoingCallState (resetOutgoingCallState g) = outgoing_idle
        /\ browserPc (resetOutgoingCallState g) = browserPc g
        /\ browserStream (resetOutgoingCallState g) = browserStream g
        /\ whatsappPc (resetOutgoingCallState g) = whatsappPc g
        /\ whatsappStream (resetOutgoingCallState g) = whatsappStream g
        /\ browserOfferSdp (resetOutgoingCallState g) = browserOfferSdp g
        /\ whatsappOfferSdp (resetOutgoingCallState g) = whatsappOfferSdp g
        /\ browserSocket (resetOutgoingCallState g) = browserSocket g
        /\ currentCallId (resetOutgoingCallState g) = currentCallId g).
Proof.
  intros W E. split; [|intros g; repeat split].
  cbn [step]. unfold on_webhook_post. rewrite W. cbn [negb].
  unfold webhook_terminate, webhook_outcome.
  pose proof (is_ours_printable (globals c) (prop (webhook_call body) "id")) as P.
  change (is_ours (globals c) (prop (webhook_call body) "id"))
    with (is_ours
            (with_currentCallId (prop (webhook_call body) "id") (globals c))
            (prop (webhook_call body) "id")) in *.
  destruct E as [E | [E | E]]; rewrite E;
    cbn -[webhook_call interpolate is_ours];
    destruct (is_ours _ (prop (webhook_call body) "id"));
    try rewrite (P eq_refl);
    try destruct (interpolate [prop (webhook_call body) "id"]);
    reflexivity.
Qed.

Lemma C5_reset_scope_witness :
  well_formed (webhook_body "B" "terminate" JUndefined) = true
  /\ globals (fst (step (after outbound_answered)
                     (WebhookPost 2 (webhook_body "B" "terminate" JUndefined))))
     = resetOutgoingCallState (globals (after outbound_answered)).
Proof.
  split; [reflexivity|].
  rewrite (proj1 (C5_reset_scope (after outbound_answered) 2
                    (webhook_body "B" "terminate" JUndefined)
                    eq_refl (or_introl eq_refl))).
  vm_compute. reflexivity.
Defined.

(** ** The wait for the provider's track *)

(** When the 10-second timer fires the server emits nothing to the browser
    and writes no session variable. *)
Lemma track_timeout_silent (pc : peer) (timer : nat) (c : server) :
  filter to_browser (snd (on_track_timeout pc timer c)) = []
  /\ globals (fst (on_track_timeout pc timer c)) = globals c.
Proof.
  unfold on_track_timeout.
  destruct (take_waiter pc _) as [[[req|] rest]|]; split; reflexivity.
Qed.

(** C8: the code at the failing input.  The attempt waits on the track
    promise; when the timer fires, the attempt is dropped and the only
    effect is the rejection nobody handles (socket handler) or the 500
    answered to the provider (webhook route).  No event goes to the browser,
    and both offers, the peers and [currentCallId] stay set. *)
Theorem C8_track_timeout_unreported :
  take_waiter 2 (pending (after silent_provider_socket)) = Some (FromSocket, [])
  /\ step (after silent_provider_socket) (TimerFired 3)
     = (mkServer (globals (after silent_provider_socket)) []
          [(2, ProviderSide 3 Rejected); (0, BrowserSide)] 6,
        [Unhandled])
  /\ step (after silent_provider_webhook) (TimerFired 3)
     = (mkServer (globals (after silent_provider_webhook)) []
          [(2, ProviderSide 3 Rejected); (0, BrowserSide)] 6,
        [SendStatus 0 500])
  /\ browserOfferSdp (globals (after silent_provider_socket)) = JStr "browser offer"
  /\ whatsappOfferSdp (globals (after silent_provider_socket)) = JStr "provider offer"
  /\ browserPc (globals (after silent_provider_socket)) = Some 0
  /\ whatsappPc (globals (after silent_provider_socket)) = Some 2.
Proof. repeat split; vm_compute; reflexivity. Qed.

(* ===================================================================== *)
(** ** Where requests, timers and suspended attempts come from *)
(* ===================================================================== *)

Lemma take_In (k : nat) (l : list (nat * task)) (t : task)
    (rest : list (nat * task)) (x : nat * task) :
  take k l = Some (t, rest) -> In x rest -> In x l.
Proof.
  revert rest; induction l as [|[k' t'] l IH]; intros rest H Hin; [discriminate|].
  cbn [take] in H. destruct (Nat.eqb k k').
  - injection H as <- <-. now right.
  - destruct (take k l) as [[t'' rest'']|]; [|discriminate].
    injection H as <- <-. destruct Hin as [<-|Hin]; [now left|].
    right. now apply (IH rest'').
Qed.

Lemma take_self (k : nat) (l : list (nat * task)) (t : task)
    (rest : list (nat * task)) :
  take k l = Some (t, rest) -> In (k, t) l.
Proof.
  revert rest; induction l as [|[k' t'] l IH]; intros rest H; [discriminate|].
  cbn [take] in H. destruct (Nat.eqb_spec k k') as [->|_].
  - injection H as <- <-. now left.
  - destruct (take k l) as [[t'' rest'']|]; [|discriminate].
    injection H as <- <-. right. now apply (IH rest'').
Qed.

Lemma take_waiter_In (pc : peer) (l : list (nat * task)) (who : caller)
    (rest : list (nat * task)) (x : nat * task) :
  take_waiter pc l = Some (who, rest) -> In x rest -> In x l.
Proof.
  revert rest; induction l as [|[k' t'] l IH]; intros rest H Hin; [discriminate|].
  cbn [take_waiter] in H.
  destruct t' as [[| | p | | | | |] w| | | | | | |];
    try (destruct (take_waiter pc l) as [[w' rest']|]; [|discriminate];
         injection H as <- <-; destruct Hin as [<-|Hin]; [now left|];
         right; now apply (IH rest')).
  destruct (Nat.eqb pc p).
  - injection H as <- <-. now right.
  - destruct (take_waiter pc l) as [[w' rest']|]; [|discriminate].
    injection H as <- <-. destruct Hin as [<-|Hin]; [now left|].
    right. now apply (IH rest').
Qed.

Lemma forward_tracks (pc : option peer) (ts : list track) (fx : list effect)
    (e : effect) :
  forward pc ts = Some fx -> In e fx -> exists p t, e = AddTrack p t.
Proof.
  unfold forward. destruct ts as [|t ts]; [intros [= <-] []|].
  destruct pc as [p|]; [|discriminate]. intros [= <-] H.
  change (In e (map (AddTrack p) (t :: ts))) in H.
  apply in_map_iff in H as (t' & <- & _). now exists p, t'.
Qed.

Lemma initiate_resume_success (phone : jsval) (r : axios_outcome) (now : Z)
    (a : jsval) :
  initiateWhatsAppCall.resume phone r now = Ret a ->
  truthy (prop a "success") = true -> confirmed r = true.
Proof.
  intros E T. pose proof (initiate_resume_total phone r now) as H.
  destruct (confirmed r); [reflexivity|]. cbn [andb] in H.
  destruct H as [msg H]. rewrite H in E. injection E as <-. discriminate T.
Qed.

Ltac split_hyps :=
  repeat match goal with
  | H : False |- _ => destruct H
  | H : _ \/ _ |- _ => destruct H as [H | H]
  | H : In _ [] |- _ => destruct H
  | H : In _ (_ :: _) |- _ => destruct H as [H | H]
  | H : In _ (_ ++ _)%list |- _ => apply in_app_or in H; destruct H as [H | H]
  | F : forward _ _ = Some ?fx, H : In _ ?fx |- _ =>
      destruct (forward_tracks _ _ _ _ F H) as (? & ? & ?); clear H
  | H : (_, _) = (_, _) |- _ => inversion H; subst; clear H
  | H : @eq task _ _ |- _ => first [discriminate H | injection H as ?; subst]
  | H : @eq bridge_point _ _ |- _ =>
      first [discriminate H | injection H as ?; subst]
  | H : @eq effect _ _ |- _ =>
      first [discriminate H | injection H; intros; subst; clear H]
  end.

Lemma step_posts (c : server) (i : input) (k : nat) (body : jsval) :
  In (AxiosPost k body) (snd (step c i)) -> post_origin c i k body.
Proof.
  destruct i; unfold_all.
  all: repeat break_match; cbn [fst snd]; intros H; split_hyps.
  all: try (cbn in *; solve [econstructor; eauto]).
Qed.

Lemma step_accept_timer_origin (c : server) (i : input) (kt : nat)
    (final : string) :
  In (kt, AcceptTimer final) (pending (fst (step c i))) ->
  In (kt, AcceptTimer final) (pending c)
  \/ exists k who rest r now,
       i = AxiosDone k r now
       /\ take k (pending c) = Some (Bridge (AtPreAccept final) who, rest)
       /\ confirmed r = true
       /\ snd (step c i) = (SetTimeout kt 1000 :: finish who).
Proof.
  destruct i; unfold_all.
  all: repeat break_match;
    cbn [fst snd pending with_pending with_globals with_peers] in *;
    intros H; split_hyps; subst.
  all: try solve [left; eauto using take_In, take_waiter_In].
  all: try solve [right; do 5 eexists; cbn in *; repeat split; eauto].
Qed.

Lemma step_pre_accept_origin (c : server) (i : input) (k : nat)
    (final : string) (who : caller) :
  In (k, Bridge (AtPreAccept final) who) (pending (fst (step c i))) ->
  In (k, Bridge (AtPreAccept final) who) (pending c)
  \/ exists id,
       In (AxiosPost k (answerCallToWhatsApp.body id final "pre_accept"))
          (snd (step c i)).
Proof.
  destruct i; unfold_all.
  all: repeat break_match;
    cbn [fst snd pending with_pending with_globals with_peers] in *;
    intros H; split_hyps; subst.
  all: try solve [left; eauto using take_In, take_waiter_In].
  all: try solve [right; eexists; left; reflexivity].
Qed.

Lemma step_accept_call_origin (c : server) (i : input) (k : nat) :
  In (k, AcceptCall) (pending (fst (step c i))) ->
  In (k, AcceptCall) (pending c)
  \/ exists id final,
       In (AxiosPost k (answerCallToWhatsApp.body id final "accept"))
          (snd (step c i)).
Proof.
  destruct i; unfold_all.
  all: repeat break_match;
    cbn [fst snd pending with_pending with_globals with_peers] in *;
    intros H; split_hyps; subst.
  all: try solve [left; eauto using take_In, take_waiter_In].
  all: try solve [right; do 2 eexists; left; reflexivity].
Qed.

Lemma step_timer_emit (c : server) (i : input) (sock : socket) (payload : jsval) :
  In (SocketEmit sock "start-browser-timer" payload) (snd (step c i)) ->
  exists k rest r now,
    i = AxiosDone k r now
    /\ take k (pending c) = Some (AcceptCall, rest)
    /\ confirmed r = true.
Proof.
  destruct i; unfold_all.
  all: repeat break_match; cbn [fst snd] in *; intros H; split_hyps; subst.
  all: try solve [do 4 eexists; cbn in *; repeat split; eauto].
Qed.

Lemma step_currentCallId (c : server) (i : input) :
  currentCallId (globals (fst (step c i))) = currentCallId (globals c)
  \/ (exists req body, i = WebhookPost req body /\ well_formed body = true)
  \/ (exists k phone rest r now,
        i = AxiosDone k r now
        /\ take k (pending c) = Some (InitiateCall phone, rest)
        /\ confirmed r = true).
Proof.
  destruct i; unfold_all.
  all: repeat break_match; cbn in *; try discriminate; auto.
  all: try solve [right; left; do 2 eexists; split; [reflexivity|];
                  now destruct (well_formed body)].
  all: right; right; do 4 eexists; repeat split;
    eauto using initiate_resume_success.
Qed.

(* ===================================================================== *)
(** ** The pre_accept / accept handshake along a run *)
(* ===================================================================== *)

Lemma exec_run (inputs : list input) (c : server) (log : list turn) :
  fst (exec c log inputs) = fst (run c inputs).
Proof.
  revert c log; induction inputs as [|i rest IH]; intros c log; [reflexivity|].
  rewrite run_cons. cbn [exec]. apply IH.
Qed.

Lemma pre_accept_sent_mono (k : nat) (final : string) (t : turn)
    (log : list turn) :
  pre_accept_sent k final log -> pre_accept_sent k final (t :: log).
Proof.
  intros (i & fx & id & H & P). exists i, fx, id. split; [now right | exact P].
Qed.

Lemma accept_sent_mono (k : nat) (t : turn) (log : list turn) :
  accept_sent k log -> accept_sent k (t :: log).
Proof.
  intros (i & fx & id & final & H & P). exists i, fx, id, final.
  split; [now right | exact P].
Qed.

Lemma accept_scheduled_mono (kt : nat) (final : string) (t : turn)
    (log : list turn) :
  accept_scheduled kt final log -> accept_scheduled kt final (t :: log).
Proof.
  intros (later & k & r & now & fx & earlier & E & C & T & P).
  exists (t :: later), k, r, now, fx, earlier. rewrite E. auto.
Qed.

Lemma handshake_inv_step (c : server) (log : list turn) (i : input) :
  handshake_inv c log ->
  handshake_inv (fst (step c i)) ((i, snd (step c i)) :: log).
Proof.
  intros (P & T & A). split; [|split].
  - intros k final who H.
    destruct (step_pre_accept_origin _ _ _ _ _ H) as [Old | [id New]].
    + apply pre_accept_sent_mono, (P _ _ _ Old).
    + exists i, (snd (step c i)), id. split; [now left | exact New].
  - intros kt final H.
    destruct (step_accept_timer_origin _ _ _ _ H)
      as [Old | (k & who & rest & r & now & -> & Tk & C & Fx)].
    + apply accept_scheduled_mono, (T _ _ Old).
    + exists [], k, r, now, (snd (step c (AxiosDone k r now))), log.
      split; [reflexivity|]. split; [exact C|]. split.
      * rewrite Fx. now left.
      * apply (P k final who), (take_self _ _ _ _ Tk).
  - intros k H.
    destruct (step_accept_call_origin _ _ _ H) as [Old | (id & final & New)].
    + apply accept_sent_mono, (A _ Old).
    + exists i, (snd (step c i)), id, final. split; [now left | exact New].
Qed.

Lemma handshake_log_step (c : server) (log : list turn) (i : input) :
  handshake_inv c log -> handshake_log log ->
  handshake_log ((i, snd (step c i)) :: log).
Proof.
  intros (P & T & A) L later i' fx earlier E.
  destruct later as [|t later].
  - cbn in E. injection E as <- <- <-. split.
    + intros k body H Act.
      destruct (step_posts _ _ _ _ H)
        as [id _ B | id _ B | _ B | _ B | sock sdp _ B
            | k0 who rest sdp _ _ _ B | kt final rest I Tk _ B];
        try (rewrite B in Act; discriminate Act).
      exists kt, final, (currentCallId (globals c)).
      split; [exact I|]. split; [|exact B].
      apply (T kt final), (take_self _ _ _ _ Tk).
    + intros sock payload H.
      destruct (step_timer_emit _ _ _ _ H) as (k & rest & r & now & I & Tk & C).
      exists k, r, now. split; [exact I|]. split; [exact C|].
      apply (A k), (take_self _ _ _ _ Tk).
  - cbn in E. injection E as _ E. exact (L later i' fx earlier E).
Qed.

Lemma exec_handshake (inputs : list input) (c : server) (log : list turn) :
  handshake_inv c log -> handshake_log log ->
  handshake_log (snd (exec c log inputs)).
Proof.
  revert c log; induction inputs as [|i rest IH]; intros c log Inv L;
    [exact L|].
  cbn [exec]. apply IH.
  - now apply handshake_inv_step.
  - now apply handshake_log_step.
Qed.

(** The [accept] goes out for call "B", for which no [pre_accept] was ever
    sent; the one [pre_accept] of the run was for call "A". *)
Lemma C2_counterexample :
  skipn 8 (snd (run server_initial call_id_race))
  = [[AxiosPost 10 (answerCallToWhatsApp.body (JStr "A") "a=setup:active" "pre_accept")];
     [SetTimeout 11 1000];
     [IoEmit "call-ended" JUndefined; SendStatus 1 200];
     [AxiosPost 12 (answerCallToWhatsApp.body (JStr "B") "a=setup:active" "accept")]]
  /\ existsb (is_post "pre_accept" (JStr "B"))
       (concat (snd (run server_initial call_id_race))) = false.
Proof. split; vm_compute; reflexivity. Qed.

(** C2 (amended): along every run from the initial configuration, an
    [accept] request is sent only in the turn in which a timer fires that
    was set, with a delay of 1000 ms, in the turn that received a confirming
    response to a [pre_accept] request sent earlier, and it carries the SDP
    of that [pre_accept]; [start-browser-timer] is emitted only in the turn
    that receives a confirming response to an [accept] request sent earlier.
    The call id of the [accept] is the value of [currentCallId] when the
    timer fires: the id of the [pre_accept] unless [currentCallId] was
    written in between. *)
Theorem C2_handshake (inputs : list input) :
  (forall later i fx earlier,
     snd (exec server_initial [] inputs) = (later ++ (i, fx) :: earlier)%list ->
     (forall k body,
        In (AxiosPost k body) fx ->
        prop body "action" = JStr "accept" ->
        exists kt final id,
          i = TimerFired kt
          /\ accept_scheduled kt final earlier
          /\ body = answerCallToWhatsApp.body id final "accept")
     /\ (forall sock payload,
           In (SocketEmit sock "start-browser-timer" payload) fx ->
           exists k r now,
             i = AxiosDone k r now
             /\ confirmed r = true
             /\ accept_sent k earlier))
  /\ (forall c kt final rest,
        take kt (pending c) = Some (AcceptTimer final, rest) ->
        snd (step c (TimerFired kt))
        = [AxiosPost (nextId c)
             (answerCallToWhatsApp.body (currentCallId (globals c)) final "accept")]).
Proof.
  split.
  - apply (exec_handshake inputs server_initial []).
    + split; [|split]; intros; contradiction.
    + intros [|t later] i fx earlier E; discriminate E.
  - intros c kt final rest H. cbn [step]. unfold on_timer. rewrite H.
    reflexivity.
Qed.

Lemma C2_handshake_witness :
  snd (exec server_initial [] call_id_race)
  = ([] ++ (TimerFired 11,
            [AxiosPost 12 (answerCallToWhatsApp.body (JStr "B") "a=setup:active" "accept")])
        :: snd (exec server_initial []
                  (inbound_to_pre_accept
                   ++ [AxiosDone 10 says_success 0;
                       WebhookPost 1 (webhook_body "B" "terminate" JUndefined)])))%list
  /\ exists kt final id,
       TimerFired 11 = TimerFired kt
       /\ accept_scheduled kt final
            (snd (exec server_initial []
                    (inbound_to_pre_accept
                     ++ [AxiosDone 10 says_success 0;
                         WebhookPost 1 (webhook_body "B" "terminate" JUndefined)])))
       /\ answerCallToWhatsApp.body (JStr "B") "a=setup:active" "accept"
          = answerCallToWhatsApp.body id final "accept".
Proof.
  assert (E : snd (exec server_initial [] call_id_race)
              = ([] ++ (TimerFired 11,
                        [AxiosPost 12 (answerCallToWhatsApp.body (JStr "B")
                                         "a=setup:active" "accept")])
                    :: snd (exec server_initial []
                              (inbound_to_pre_accept
                               ++ [AxiosDone 10 says_success 0;
                                   WebhookPost 1 (webhook_body "B" "terminate"
                                                    JUndefined)])))%list)
    by (vm_compute; reflexivity).
  split; [exact E|].
  apply (proj1 (proj1 (C2_handshake call_id_race) _ _ _ _ E) 12).
  - left. reflexivity.
  - reflexivity.
Defined.

(* ===================================================================== *)
(** ** [currentCallId] *)
(* ===================================================================== *)

(** The [pre_accept] of that attempt carries "B", the id stored by line 168,
    while the latest webhook event was about "A". *)
Lemma C10_counterexample :
  last_webhook_id (offer_after_outbound ++ [EngineDone 10 Settled]) JNull = JStr "A"
  /\ snd (step (after offer_after_outbound) (EngineDone 10 Settled))
     = [AxiosPost 11 (answerCallToWhatsApp.body (JStr "B") "a=setup:active" "pre_accept")].
Proof. split; vm_compute; reflexivity. Qed.

(** C10 (amended): every well-formed webhook event stores its id in
    [currentCallId], whatever its event type and whether or not the id is
    the one of the active outbound session.  A [pre_accept] or [accept]
    request carries the value [currentCallId] has when the request is sent.
    Besides a well-formed webhook event, only the confirmed response to an
    outbound initiation (line 168) writes [currentCallId]; so the id sent is
    that of the latest well-formed webhook event unless such a response
    came later. *)
Theorem C10_current_call_id (c : server) (i : input) :
  (forall req body,
     well_formed body = true ->
     currentCallId (globals (fst (step c (WebhookPost req body))))
     = prop (webhook_call body) "id")
  /\ (forall k body,
        In (AxiosPost k body) (snd (step c i)) ->
        prop body "action" = JStr "pre_accept"
        \/ prop body "action" = JStr "accept" ->
        prop body "call_id" = currentCallId (globals c))
  /\ (currentCallId (globals (fst (step c i))) = currentCallId (globals c)
      \/ (exists req body, i = WebhookPost req body /\ well_formed body = true)
      \/ (exists k phone rest r now,
            i = AxiosDone k r now
            /\ take k (pending c) = Some (InitiateCall phone, rest)
            /\ confirmed r = true)).
Proof.
  split; [|split].
  - intros req body W. unfold_all. rewrite W. cbn [negb].
    repeat break_match; reflexivity.
  - intros k body H Act.
    destruct (step_posts _ _ _ _ H)
      as [id _ B | id _ B | _ B | _ B | sock sdp _ B
          | k0 who rest sdp _ _ _ B | kt final rest _ _ _ B];
      rewrite B in *; try reflexivity;
      destruct Act as [Act | Act]; discriminate Act.
  - apply step_currentCallId.
Qed.

(** ** The SDP answered to the provider *)













(** ** Payloads keyed by "0" *)

(** [?.[0]] reads the property ["0"] of an object as it reads the first
    element of an array: the event is well formed, ends the outbound call
    "B" and is broadcast. *)
Lemma terminate_keyed_acted_on :
  well_formed terminate_keyed = true
  /\ outbound (globals (after outbound_ringing))
     = (true, mkOutgoing (JStr "15551234567") (JStr "Outgoing Call") (JStr "B")
                ringing)
  /\ outbound (globals (fst (step (after outbound_ringing)
                               (WebhookPost 1 terminate_keyed))))
     = (false, outgoing_idle)
  /\ snd (step (after outbound_ringing) (WebhookPost 1 terminate_keyed))
     = [IoEmit "call-ended" JUndefined; SendStatus 1 200].
Proof. repeat split; vm_compute; reflexivity. Qed.

(** ** Values without a string conversion *)

(** A call placed to a number that has no string conversion: the route
    stores the number and tells the browser to start, then fails on the text
    of its answer (line 356) and answers 500; the browser's offer is sent to
    the provider; and when the provider confirms, line 488 throws inside the
    [try] of [initiateWhatsAppCall], so that the call is reported as failed
    and the record reset. *)
Lemma call_to_no_string :
  snd (run server_initial
         [InitiateCallPost 0 (JObj [("phoneNumber", no_string)]);
          BrowserOffer 7 (JStr "browser offer");
          AxiosDone 0 (Ret (JObj [("success", JBool true);
                                  ("call_id", JStr "B")])) 0])
  = [[IoEmit "start-outgoing-call-webrtc"
        (JObj [("phoneNumber", no_string);
               ("callerName", JStr "Outgoing Call")]);
      SendJson 0 500
        (obj_failure (JStr "Internal server error while initiating call"))];
     [AxiosPost 0 (initiateWhatsAppCall.body no_string (JStr "browser offer"))];
     [IoEmit "webrtc-error"
        (JObj [("error", JStr "Failed to connect to WhatsApp API")])]].
Proof. vm_compute. reflexivity. Qed.

(** A [connect] event whose caller number has no string conversion, with
    the browser's offer already there: the offer of the event and its call
    id are stored, line 275 throws, the route answers 500, and neither the
    browser is told nor the bridge tried. *)
Lemma connect_from_no_string :
  well_formed connect_no_string = true
  /\ step (after [BrowserOffer 7 (JStr "browser offer")])
         (WebhookPost 0 connect_no_string)
     = (with_globals
          (with_whatsappOfferSdp (JStr "provider offer")
             (with_currentCallId (JStr "A")
                (globals (after [BrowserOffer 7 (JStr "browser offer")]))))
          (after [BrowserOffer 7 (JStr "browser offer")]),
        [SendStatus 0 500]).
Proof. split; vm_compute; reflexivity. Qed.

(** The browser hangs up with a call id that has no string conversion: the
    request is sent, and whatever comes back, the log lines of [rejectCall]
    throw and the handler ends in a rejection nobody handles. *)
Lemma hangup_with_no_string :
  snd (run server_initial [RejectCallEv no_string; AxiosDone 0 says_success 0])
  = [[AxiosPost 0 (rejectCall.body no_string)]; [Unhandled]].
Proof. vm_compute. reflexivity. Qed.

(* ===================================================================== *)
(** * Further properties of the server *)
(* ===================================================================== *)

Ltac tidy :=
  repeat match goal with
  | H : _ && _ = true |- _ => apply andb_true_iff in H; destruct H
  | H : negb _ = false |- _ => apply negb_false_iff in H
  | H : negb _ = true |- _ => apply negb_true_iff in H
  end.

Lemma js_or_truthy (a : jsval) (s : string) :
  (s =? "") = false -> truthy (js_or a (JStr s)) = true.
Proof.
  intros N. unfold js_or. destruct (truthy a) eqn:T; [exact T|].
  cbn. now rewrite N.
Qed.

Lemma well_formed_id (body : jsval) :
  well_formed body = true -> truthy (prop (webhook_call body) "id") = true.
Proof.
  unfold well_formed. intros H.
  apply andb_true_iff in H as [H _]. now apply andb_true_iff in H as [_ H].
Qed.

Lemma strict_eq_truthy_l (a b : jsval) :
  strict_eq a b = true -> truthy b = true -> truthy a = true.
Proof.
  destruct a, b; cbn; try discriminate; auto.
  - intros E. apply Bool.eqb_prop in E. now subst.
  - intros E. apply Z.eqb_eq in E. now subst.
  - intros E. apply String.eqb_eq in E. now subst.
Qed.

Lemma run_cons_snd (c : server) (i : input) (rest : list input) :
  snd (run c (i :: rest)) = snd (step c i) :: snd (run (fst (step c i)) rest).
Proof.
  cbn [run]. destruct (step c i) as [c1 fx]. cbn [fst snd].
  destruct (run c1 rest) as [c2 tr]. reflexivity.
Qed.

(** ** Webhook verification *)

Lemma VERIFY_TOKEN_nonempty (env : option string) :
  (VERIFY_TOKEN env =? "") = false.
Proof.
  destruct env as [s|]; [|reflexivity]. cbn.
  destruct (s =? "") eqn:E; [reflexivity | exact E].
Qed.

(** X1: the GET route answers 200 exactly when [hub.mode] is the string
    [subscribe] and [hub.verify_token] is the configured token, and the body
    is then [hub.challenge] as received; it answers 400 exactly when the
    mode or the token is missing or empty, and 403 otherwise.  The
    configured token is never empty (an unset or empty [VERIFY_TOKEN] gives
    the built-in default), so the presence test never rejects a matching
    token. *)
Theorem X1_webhook_verification (env : option string) (query : jsval) :
  (webhook_get env query = Challenge (prop query "hub.challenge")
   <-> prop query "hub.mode" = JStr "subscribe"
       /\ prop query "hub.verify_token" = JStr (VERIFY_TOKEN env))
  /\ (webhook_get env query = BadRequest
      <-> truthy (prop query "hub.mode") = false
          \/ truthy (prop query "hub.verify_token") = false)
  /\ (forall body, webhook_get env query = Challenge body ->
                   body = prop query "hub.challenge")
  /\ VERIFY_TOKEN env <> ""
  /\ VERIFY_TOKEN None = "sandeep_bora"
  /\ VERIFY_TOKEN (Some "") = "sandeep_bora".
Proof.
  unfold webhook_get.
  pose proof (VERIFY_TOKEN_nonempty env) as NE.
  split; [|split; [|split; [|split; [|split]]]].
  - split.
    + destruct (truthy _ && truthy _); [|discriminate].
      destruct (strict_eq (prop query "hub.mode") _) eqn:M; [|discriminate].
      destruct (strict_eq (prop query "hub.verify_token") _) eqn:T;
        [|discriminate].
      intros _. split; now apply strict_eq_str.
    + intros [-> ->]. cbn [truthy strict_eq]. rewrite NE, !String.eqb_refl.
      reflexivity.
  - split.
    + destruct (truthy (prop query "hub.mode")); [|now left].
      destruct (truthy (prop query "hub.verify_token")); [|now right].
      cbn [andb]. destruct (_ && _); discriminate.
    + intros [-> | ->]; [reflexivity | now rewrite andb_false_r].
  - intros body. destruct (_ && _); [|discriminate].
    destruct (_ && _); [|discriminate]. now intros [= <-].
  - intros E. rewrite E in NE. discriminate.
  - reflexivity.
  - reflexivity.
Qed.

(** ** Placing an outbound call *)

(** Lines 154-187 when no outbound call waits for this offer: the offer and
    the socket are stored, and the bridge starts exactly when the offer is
    truthy and a truthy provider offer is stored. *)
Lemma browser_offer_inbound (c : server) (sock : socket) (sdp : jsval) :
  waiting_outbound (globals c) = false ->
  step c (BrowserOffer sock sdp)
  = if truthy sdp && truthy (whatsappOfferSdp (globals c))
    then (mkServer (with_browserPeer (nextId c)
                      (with_browserOffer sdp sock (globals c)))
            ((S (nextId c), Bridge AtSetRemoteBrowser FromSocket) :: pending c)
            ((nextId c, BrowserSide) :: peers c)
            (S (S (nextId c))),
          [NewPeer (nextId c);
           SetRemoteDescription (S (nextId c)) (nextId c) sdp])
    else (with_globals (with_browserOffer sdp sock (globals c)) c, []).
Proof.
  unfold waiting_outbound. intros W.
  cbn [step]. unfold on_browser_offer, initiateWebRTCBridge, await.
  cbn [globals with_globals isOutgoingCall outgoingCallState with_browserOffer
         browserOfferSdp whatsappOfferSdp browserSocket is_some negb orb
         pending peers nextId].
  destruct (isOutgoingCall (globals c));
    destruct (status (outgoingCallState (globals c))); try discriminate W;
    rewrite orb_false_r;
    destruct (truthy sdp); destruct (truthy (whatsappOfferSdp (globals c)));
    reflexivity.
Qed.

(** Lines 160-164 and 471-518 when an outbound call waits for this offer. *)
Lemma browser_offer_outbound (c : server) (sock : socket) (sdp : jsval) :
  waiting_outbound (globals c) = true ->
  step c (BrowserOffer sock sdp)
  = if nullish sdp
    then (with_globals
            (resetOutgoingCallState (with_browserOffer sdp sock (globals c))) c,
          [IoEmit "webrtc-error"
             (JObj [("error", JStr "Failed to connect to WhatsApp API")])])
    else (mkServer (with_browserOffer sdp sock (globals c))
            ((nextId c, InitiateCall (phoneNumber (outgoingCallState (globals c)))) :: pending c) (peers c) (S (nextId c)),
          [AxiosPost (nextId c)
             (initiateWhatsAppCall.body
                (phoneNumber (outgoingCallState (globals c))) sdp)]).
Proof.
  unfold waiting_outbound. intros W. apply andb_true_iff in W as [F S].
  cbn [step]. unfold on_browser_offer.
  cbn [globals with_globals isOutgoingCall outgoingCallState with_browserOffer].
  rewrite F. destruct (status (outgoingCallState (globals c)));
    try discriminate S.
  unfold initiateWhatsAppCall.start, initiateWhatsAppCall.try_before, member.
  destruct (nullish sdp); reflexivity.
Qed.

(** X2: a call request without a usable phone number (no body, no number,
    an empty one) changes nothing and is answered with a failure, 500 when
    there is no body and 400 otherwise.  A request with a number replaces
    the outbound record, whatever it held, and the next offer of the browser
    is sent to the provider as a [connect] request to that number with that
    SDP, no bridge being attempted on it. *)
Theorem X2_place_call (c : server) (req : nat) (body : jsval)
    (sock : socket) (sdp : jsval) :
  if truthy (prop body "phoneNumber") then
    outbound (globals (fst (step c (InitiateCallPost req body))))
    = (true,
       mkOutgoing (prop body "phoneNumber")
         (js_or (prop body "callerName") (JStr "Outgoing Call"))
         JNull waiting_for_sdp)
    /\ (nullish sdp = false ->
        snd (step (fst (step c (InitiateCallPost req body))) (BrowserOffer sock sdp))
        = [AxiosPost (nextId c)
             (initiateWhatsAppCall.body (prop body "phoneNumber") sdp)])
  else
    fst (step c (InitiateCallPost req body)) = c
    /\ exists msg,
         snd (step c (InitiateCallPost req body))
         = [SendJson req (if nullish body then 500 else 400) (obj_failure msg)].
Proof.
  destruct (truthy (prop body "phoneNumber")) eqn:T.
  - assert (E : fst (step c (InitiateCallPost req body))
                = with_globals
                    (with_outgoing true
                       (mkOutgoing (prop body "phoneNumber")
                          (js_or (prop body "callerName") (JStr "Outgoing Call"))
                          JNull waiting_for_sdp)
                       (globals c)) c).
    { cbn [step]. unfold on_initiate_call, member.
      destruct (nullish body) eqn:N; [destruct body; discriminate|].
      rewrite T. reflexivity. }
    rewrite E. split; [reflexivity|]. intros N.
    rewrite browser_offer_outbound by reflexivity. rewrite N. reflexivity.
  - cbn [step]. unfold on_initiate_call, member.
    destruct (nullish body); [split; [reflexivity | eexists; reflexivity]|].
    rewrite T. split; [reflexivity | eexists; reflexivity].
Qed.

(** X3: when an outbound call waits for the browser's offer and the offer
    that arrives is [null] or [undefined], no request goes to the provider:
    the failure of reading [sdp.length] is caught, the outbound record is
    reset and the browser is told [webrtc-error] with the message
    "Failed to connect to WhatsApp API".  The [null] offer and the socket
    are stored all the same. *)
Theorem X3_outbound_null_offer (c : server) (sock : socket) (sdp : jsval) :
  waiting_outbound (globals c) = true ->
  nullish sdp = true ->
  step c (BrowserOffer sock sdp)
  = (with_globals
       (resetOutgoingCallState (with_browserOffer sdp sock (globals c))) c,
     [IoEmit "webrtc-error"
        (JObj [("error", JStr "Failed to connect to WhatsApp API")])]).
Proof.
  intros W N. rewrite (browser_offer_outbound c sock sdp W), N. reflexivity.
Qed.

Lemma X3_outbound_null_offer_witness :
  waiting_outbound
    (globals (fst (step server_initial
                     (InitiateCallPost 0 (JObj [("phoneNumber", JStr "15551234567")])))))
  = true
  /\ snd (step (fst (step server_initial
                       (InitiateCallPost 0 (JObj [("phoneNumber", JStr "15551234567")]))))
            (BrowserOffer 7 JNull))
     = [IoEmit "webrtc-error"
          (JObj [("error", JStr "Failed to connect to WhatsApp API")])].
Proof.
  split; [reflexivity|].
  rewrite (X3_outbound_null_offer
             (fst (step server_initial
                     (InitiateCallPost 0 (JObj [("phoneNumber", JStr "15551234567")]))))
             7 JNull eq_refl eq_refl).
  reflexivity.
Defined.

Lemma initiate_catch_message (e : js_error) :
  exists msg, truthy msg = true
              /\ initiateWhatsAppCall.catch e = Ret (obj_failure msg).
Proof.
  unfold initiateWhatsAppCall.catch. eexists. split; [|reflexivity].
  destruct (truthy (prop (response e) "data")); [|reflexivity].
  now apply js_or_truthy.
Qed.

Lemma initiate_failure_message (phone : jsval) (r : axios_outcome) (now : Z) :
  confirmed r && printable phone = false ->
  exists msg, truthy msg = true
              /\ initiateWhatsAppCall.resume phone r now
                 = Ret (obj_failure msg).
Proof.
  destruct r as [data|e]; cbn [confirmed andb]; intros C.
  - unfold initiateWhatsAppCall.resume, initiateWhatsAppCall.try_after.
    cbn [bind]. destruct (success_is_true data); cbn [andb] in C.
    + pose proof (interpolate_one phone) as P. rewrite C in P.
      destruct P as [e P]. rewrite P. cbn [bind try_catch].
      apply initiate_catch_message.
    + eexists. split; [|reflexivity]. reflexivity.
  - apply initiate_catch_message.
Qed.

(** X4: when the response to an outbound initiation arrives, either it says
    [success: true] (and the callee converts to a string, which line 488
    does for its log line), and then the call id (the provider's [call_id]
    when truthy, else ["outgoing_<Date.now()>"]) is truthy, is stored both
    in [currentCallId] and in the outbound record, the status becomes
    [ringing] and the browser is told [outgoing-call-initiated]; or the
    outbound record is reset and the browser is told [webrtc-error] with a
    truthy message.  Nothing else of the session changes. *)
Theorem X4_initiate_response (c : server) (k : nat) (phone : jsval)
    (rest : list (nat * task)) (r : axios_outcome) (now : Z) :
  take k (pending c) = Some (InitiateCall phone, rest) ->
  if confirmed r && printable phone then
    exists data id,
      r = Ret data
      /\ id = js_or (prop data "call_id") (JStr ("outgoing_" ++ decimal now))
      /\ truthy id = true
      /\ step c (AxiosDone k r now)
         = (mkServer
              (with_outgoing (isOutgoingCall (globals c))
                 (mkOutgoing (phoneNumber (outgoingCallState (globals c)))
                    (callerName (outgoingCallState (globals c))) id ringing)
                 (with_currentCallId id (globals c)))
              rest (peers c) (nextId c),
            [IoEmit "outgoing-call-initiated"
               (JObj [("callId", id);
                      ("phoneNumber", phoneNumber (outgoingCallState (globals c)));
                      ("callerName", callerName (outgoingCallState (globals c)))])])
  else
    exists msg,
      truthy msg = true
      /\ step c (AxiosDone k r now)
         = (mkServer (resetOutgoingCallState (globals c)) rest (peers c) (nextId c),
            [IoEmit "webrtc-error" (JObj [("error", msg)])]).
Proof.
  intros H. unfold step. rewrite H. cbn [on_axios].
  pose proof (initiate_resume_total phone r now) as T.
  destruct (confirmed r && printable phone) eqn:C.
  - destruct T as (data & -> & E). rewrite E.
    exists data, (js_or (prop data "call_id") (JStr ("outgoing_" ++ decimal now))).
    split; [reflexivity|]. split; [reflexivity|].
    split; [now apply js_or_truthy|]. reflexivity.
  - destruct (initiate_failure_message phone r now C) as (msg & M & E).
    rewrite E. exists msg. split; [exact M | reflexivity].
Qed.

Lemma X4_initiate_response_witness :
  take 0 (pending (after (firstn 2 outbound_ringing)))
  = Some (InitiateCall (JStr "15551234567"), [])
  /\ exists msg,
       truthy msg = true
       /\ step (after (firstn 2 outbound_ringing)) (AxiosDone 0 says_failure 0)
          = (mkServer (resetOutgoingCallState (globals (after (firstn 2 outbound_ringing))))
               [] (peers (after (firstn 2 outbound_ringing)))
               (nextId (after (firstn 2 outbound_ringing))),
             [IoEmit "webrtc-error" (JObj [("error", msg)])]).
Proof.
  split; [vm_compute; reflexivity|].
  exact (X4_initiate_response (after (firstn 2 outbound_ringing)) 0
           (JStr "15551234567") [] says_failure 0%Z eq_refl).
Defined.

(** ** Webhook events the server does not act on *)

(** X5: a webhook payload is acted on only if the first call of the first
    change of the first entry is an object with a truthy [id] and a truthy
    [event]; any other payload is acknowledged with 200 and changes nothing.
    An event of a type other than [connect], [terminate], [reject] and
    [timeout] changes [currentCallId] only, and is acknowledged with 200, or
    with 500 when the type is a value that does not convert to a string (the
    log line 316 throws). *)
Theorem X5_webhook_ignored (c : server) (req : nat) (body : jsval) :
  (well_formed body = false ->
   step c (WebhookPost req body) = (c, [SendStatus req 200]))
  /\ (well_formed body = true ->
      exists fields,
        webhook_call body = JObj fields
        /\ truthy (assoc "id" fields) = true
        /\ truthy (assoc "event" fields) = true)
  /\ (well_formed body = true ->
      recognised (prop (webhook_call body) "event") = false ->
      step c (WebhookPost req body)
      = (with_globals
           (with_currentCallId (prop (webhook_call body) "id") (globals c)) c,
         [SendStatus req
            (if printable (prop (webhook_call body) "event")
             then 200 else 500)])).
Proof.
  split; [|split].
  - intros W. cbn [step]. unfold on_webhook_post. now rewrite W.
  - unfold well_formed. intros W.
    apply andb_true_iff in W as [W E]. apply andb_true_iff in W as [_ I].
    destruct (webhook_call body) as [| | | | | |fields]; try discriminate I.
    exists fields. auto.
  - unfold recognised. intros W R.
    apply orb_false_iff in R as [R R4]. apply orb_false_iff in R as [R R3].
    apply orb_false_iff in R as [R1 R2].
    cbn [step]. unfold on_webhook_post. rewrite W, R1, R2, R3, R4.
    cbn [negb]. pose proof (interpolate_one (prop (webhook_call body) "event")) as P.
    destruct (printable (prop (webhook_call body) "event")).
    + now rewrite P.
    + destruct P as [e P]. now rewrite P.
Qed.

(** ** The outbound record in every reachable configuration *)

Lemma initiate_resume_callId (phone : jsval) (r : axios_outcome) (now : Z)
    (a : jsval) :
  initiateWhatsAppCall.resume phone r now = Ret a ->
  truthy (prop a "success") = true ->
  truthy (prop a "callId") = true.
Proof.
  intros E T. pose proof (initiate_resume_total phone r now) as H.
  destruct (confirmed r && printable phone).
  - destruct H as (data & _ & H). rewrite H in E. injection E as <-.
    now apply js_or_truthy.
  - destruct H as [msg H]. rewrite H in E. injection E as <-. discriminate T.
Qed.

Lemma step_outbound_write (c : server) (i : input) :
  outbound_write (globals c) (globals (fst (step c i))).
Proof.
  destruct i; unfold_all; unfold is_ours.
  all: repeat break_match;
    cbn [fst snd globals with_globals with_pending with_peers].
  all: tidy.
  all: try solve [apply ow_same; reflexivity].
  all: try solve [apply ow_reset; reflexivity].
  all: try solve [eapply ow_request; [| |reflexivity]; eauto using js_or_truthy].
  all: try solve [eapply ow_ringing; [|reflexivity];
                  eauto using initiate_resume_callId].
  all: cbn in *; tidy;
    solve [eapply ow_connected;
           [eassumption
           |eauto using strict_eq_truthy_l, well_formed_id
           |unfold outbound; cbn;
            match goal with
            | H : isOutgoingCall _ = true |- _ => now rewrite H
            end]].
Qed.

Lemma outbound_write_wf (g g' : session) :
  outbound_write g g' -> outbound_wf g -> outbound_wf g'.
Proof.
  unfold outbound_wf, outbound.
  intros [E | E | phone name P N E | id T E | F T E] H; injection E as E1 E2;
    rewrite E1, E2; cbn.
  - exact H.
  - auto.
  - auto.
  - destruct (isOutgoingCall g); destruct H as (A & B & _); auto 6.
  - rewrite F in H. destruct H as (A & B & _). auto 6.
Qed.

(** X6: in every configuration the server can reach the outbound record has
    one of five shapes.  With [isOutgoingCall] set: callee and caller name
    are truthy, and the record is waiting for the offer with no call id, or
    ringing or connected with a truthy call id.  With [isOutgoingCall]
    unset: callee and caller name are [null], and the record is idle with no
    call id, or (after an initiation response that arrived once the call had
    been reset) ringing with a truthy call id. *)
Theorem X6_outbound_record_shapes (inputs : list input) :
  outbound_wf (globals (after inputs)).
Proof.
  unfold after.
  assert (G : forall c, outbound_wf (globals c) ->
                        outbound_wf (globals (fst (run c inputs)))).
  { induction inputs as [|i rest IH]; intros c H; [exact H|].
    rewrite run_cons. apply IH.
    exact (outbound_write_wf _ _ (step_outbound_write c i) H). }
  apply G. cbn. auto.
Qed.

(** ** Handles and suspended functions are never released *)

Lemma step_handles (c : server) (i : input) :
  handles_kept (globals c) (globals (fst (step c i))).
Proof.
  unfold handles_kept. destruct i; unfold_all.
  all: repeat break_match; cbn; repeat split; auto.
  all: intros; try discriminate;
    match goal with H : ?x = Some _ |- context [?x] => now rewrite H end.
Qed.

(** X7: once [browserPc], [browserStream], [whatsappPc] or [browserSocket]
    is set, it is set in every later configuration of the run: no event, in
    particular no end of a call, puts any of them back to [null]. *)
Theorem X7_handles_kept (inputs more : list input) :
  handles_kept (globals (after inputs)) (globals (after (inputs ++ more))).
Proof.
  unfold after. rewrite run_app. generalize (fst (run server_initial inputs)).
  induction more as [|i more IH]; intros c.
  - unfold handles_kept. repeat split; auto.
  - rewrite run_cons.
    destruct (step_handles c i) as (A & B & C & D).
    destruct (IH (fst (step c i))) as (A' & B' & C' & D').
    unfold handles_kept. repeat split; auto.
Qed.





(** ** When a bridge attempt starts *)

(** X9: a peer connection is created in two situations only.  The
    browser-side peer, in the turn of a browser offer or of a webhook post
    that leaves both offers truthy and a socket bound (empty strings and
    [undefined] count as missing, like [null]); the provider-side peer, when
    the browser-side [setRemoteDescription] of an attempt has resolved. *)
Theorem X9_bridge_start (c : server) (i : input) (pc : peer) :
  In (NewPeer pc) (snd (step c i)) ->
  (bridge_ready (globals (fst (step c i))) = true
   /\ ((exists sock sdp, i = BrowserOffer sock sdp)
       \/ (exists req body, i = WebhookPost req body)))
  \/ (exists k who rest,
        i = EngineDone k Settled
        /\ take k (pending c) = Some (Bridge AtSetRemoteBrowser who, rest)).
Proof.
  unfold bridge_ready.
  destruct i; unfold_all.
  all: repeat break_match; cbn [fst snd] in *; intros H; split_hyps.
  all: try solve [right; eauto].
  all: left; cbn in *;
    repeat match goal with
    | H : _ || _ = false |- _ => apply orb_false_iff in H; destruct H
    | H : negb _ = false |- _ => apply negb_false_iff in H
    end;
    split; [|eauto];
    repeat match goal with H : _ = true |- _ => rewrite H end; reflexivity.
Qed.

Lemma X9_bridge_start_witness :
  In (NewPeer 0)
     (snd (step (fst (step server_initial
                        (WebhookPost 0 (webhook_body "A" "connect"
                                          (JObj [("sdp", JStr "provider offer")])))))
             (BrowserOffer 7 (JStr "browser offer"))))
  /\ ((bridge_ready
         (globals
            (fst (step (fst (step server_initial
                               (WebhookPost 0 (webhook_body "A" "connect"
                                                 (JObj [("sdp", JStr "provider offer")])))))
                    (BrowserOffer 7 (JStr "browser offer"))))) = true
       /\ ((exists sock sdp, BrowserOffer 7 (JStr "browser offer") = BrowserOffer sock sdp)
           \/ (exists req body, BrowserOffer 7 (JStr "browser offer") = WebhookPost req body)))
      \/ (exists k who rest,
            BrowserOffer 7 (JStr "browser offer") = EngineDone k Settled
            /\ take k (pending (fst (step server_initial
                                       (WebhookPost 0 (webhook_body "A" "connect"
                                                         (JObj [("sdp", JStr "provider offer")]))))))
               = Some (Bridge AtSetRemoteBrowser who, rest))).
Proof.
  split; [vm_compute; left; reflexivity|].
  apply (X9_bridge_start
           (fst (step server_initial
                   (WebhookPost 0 (webhook_body "A" "connect"
                                     (JObj [("sdp", JStr "provider offer")])))))
           (BrowserOffer 7 (JStr "browser offer")) 0).
  vm_compute. left. reflexivity.
Defined.

Lemma connect_logged (body : jsval) (ours : bool) :
  caller_printable body = true ->
  interpolate (if ours then [caller_number body]
               else [caller_name body; caller_number body])
  = Ret tt.
Proof.
  unfold caller_printable, printable. intros P.
  apply andb_true_iff in P as [P1 P2].
  destruct ours; cbn [interpolate];
    destruct (to_string (caller_name body)); try discriminate P1;
    destruct (to_string (caller_number body)); try discriminate P2;
    reflexivity.
Qed.

Lemma webhook_connect_step (c : server) (req : nat) (body : jsval) :
  connect_event body = true ->
  caller_printable body = true ->
  existsb is_new_peer (snd (step c (WebhookPost req body)))
  = truthy (browserOfferSdp (globals c)) && truthy (offered_sdp body)
    && is_some (browserSocket (globals c))
  /\ whatsappOfferSdp (globals (fst (step c (WebhookPost req body))))
     = offered_sdp body
  /\ (waiting_outbound (globals c) = false ->
      waiting_outbound (globals (fst (step c (WebhookPost req body)))) = false).
Proof.
  unfold connect_event, offered_sdp, waiting_outbound. intros E L.
  apply andb_true_iff in E as [W E].
  cbn [step]. unfold on_webhook_post. rewrite W, E. cbn [negb].
  unfold webhook_connect.
  change (js_or (prop (prop (webhook_contact body) "profile") "name")
            (JStr "Unknown")) with (caller_name body).
  change (js_or (prop (webhook_contact body) "wa_id") (JStr "Unknown"))
    with (caller_number body).
  rewrite (connect_logged body _ L).
  unfold initiateWebRTCBridge, await, is_ours.
  cbn [globals with_globals with_currentCallId with_whatsappOfferSdp
         isOutgoingCall outgoingCallState callId].
  destruct (isOutgoingCall (globals c)) eqn:F; cbn [andb];
    [destruct (strict_eq (callId (outgoingCallState (globals c))) _)|];
    cbn;
    destruct (truthy (browserOfferSdp (globals c)));
    destruct (truthy (prop (prop (webhook_call body) "session") "sdp"));
    destruct (browserSocket (globals c)) eqn:K; cbn; rewrite ?F, ?K;
    repeat split; auto.
Qed.

(** X10: the two offers of an inbound call may arrive in either order.
    From a configuration that holds neither (and has no outbound call
    waiting for an offer), whichever of the browser's offer and the
    provider's [connect] event comes first starts nothing, and the one that
    comes second starts the bridge attempt.  (The [connect] event is one
    whose caller name and number convert to strings: logging them comes
    before the bridge.) *)
Theorem X10_offers_any_order (c : server) (sock : socket) (sdp : jsval)
    (req : nat) (body : jsval) :
  waiting_outbound (globals c) = false ->
  truthy (browserOfferSdp (globals c)) = false ->
  truthy (whatsappOfferSdp (globals c)) = false ->
  connect_event body = true ->
  caller_printable body = true ->
  truthy sdp = true ->
  truthy (offered_sdp body) = true ->
  (existsb is_new_peer (snd (step c (BrowserOffer sock sdp))) = false
   /\ existsb is_new_peer
        (snd (step (fst (step c (BrowserOffer sock sdp))) (WebhookPost req body)))
      = true)
  /\ (existsb is_new_peer (snd (step c (WebhookPost req body))) = false
      /\ existsb is_new_peer
           (snd (step (fst (step c (WebhookPost req body))) (BrowserOffer sock sdp)))
         = true).
Proof.
  intros W B P E L TB TP.
  pose proof (browser_offer_inbound c sock sdp W) as S1.
  rewrite P, andb_false_r in S1.
  destruct (webhook_connect_step c req body E L) as (N2 & P2 & W2).
  split; split.
  - rewrite S1. reflexivity.
  - destruct (webhook_connect_step (fst (step c (BrowserOffer sock sdp))) req body
                E L) as (N & _).
    rewrite N, S1. cbn. now rewrite TB, TP.
  - rewrite N2, B. reflexivity.
  - rewrite (browser_offer_inbound _ sock sdp (W2 W)), P2, TB, TP. reflexivity.
Qed.

Lemma X10_offers_any_order_witness :
  connect_event (webhook_body "A" "connect" (JObj [("sdp", JStr "provider offer")]))
  = true
  /\ existsb is_new_peer
       (snd (step (fst (step server_initial
                          (WebhookPost 0 (webhook_body "A" "connect"
                                            (JObj [("sdp", JStr "provider offer")])))))
               (BrowserOffer 7 (JStr "browser offer"))))
     = true.
Proof.
  split; [reflexivity|].
  exact (proj2 (proj2 (X10_offers_any_order server_initial 7 (JStr "browser offer") 0
                         (webhook_body "A" "connect" (JObj [("sdp", JStr "provider offer")]))
                         eq_refl eq_refl eq_refl eq_refl eq_refl eq_refl
                         eq_refl))).
Defined.

(** ** The order of a bridge attempt *)

Lemma role_of_In (pc : peer) (l : list (peer * peer_role)) (r : peer_role) :
  role_of pc l = Some r -> In (pc, r) l.
Proof.
  induction l as [|[p r'] l IH]; [discriminate|]. cbn [role_of].
  destruct (Nat.eqb_spec pc p) as [->|_].
  - intros [= ->]. now left.
  - intros H. right. now apply IH.
Qed.

Lemma set_role_In (pc : peer) (r0 : peer_role) (l : list (peer * peer_role))
    (x : peer * peer_role) :
  In x (set_role pc r0 l) -> In x l \/ snd x = r0.
Proof.
  induction l as [|[p r'] l IH]; [intros []|]. cbn [set_role].
  destruct (Nat.eqb pc p).
  - intros [<-|H]; [now right | left; now right].
  - intros [<-|H]; [left; now left|].
    destruct (IH H) as [?|?]; [left; now right | now right].
Qed.

Ltac prep :=
  cbn [fst snd pending with_pending with_globals with_peers] in *;
  split_hyps; subst; cbn [after_track after_answer] in *; try discriminate.

Lemma step_fulfilled (c : server) (i : input) (pc : peer) (t : nat) :
  In (pc, ProviderSide t Fulfilled) (peers (fst (step c i))) ->
  In (pc, ProviderSide t Fulfilled) (peers c)
  \/ provider_track (i, snd (step c i)).
Proof.
  unfold provider_track.
  destruct i; unfold_all.
  all: repeat break_match;
    cbn [fst snd peers with_pending with_globals with_peers] in *;
    intros H.
  all: try solve [left; exact H].
  all: try solve [destruct H as [H|H]; [discriminate H | left; exact H]].
  all: try solve [destruct H as [H|H]; [discriminate H|];
                  destruct H as [H|H]; [discriminate H | left; exact H]].
  all: try solve [apply set_role_In in H; destruct H as [H|H];
                  [left; exact H | discriminate H]].
  all: try solve [apply set_role_In in H; destruct H as [H|H];
                  [left; exact H
                  | injection H as <-; right; do 3 eexists; split;
                    [reflexivity | left; reflexivity]]].
Qed.

Lemma step_after_track (c : server) (i : input) (k : nat)
    (pt : bridge_point) (who : caller) :
  after_track pt = true ->
  In (k, Bridge pt who) (pending (fst (step c i))) ->
  In (k, Bridge pt who) (pending c)
  \/ provider_track (i, snd (step c i))
  \/ (exists pc t, In (pc, ProviderSide t Fulfilled) (peers c))
  \/ resumes c after_track.
Proof.
  unfold provider_track, resumes.
  destruct i; unfold_all.
  all: repeat break_match; intros S H; prep.
  all: try solve [left; eauto using take_In, take_waiter_In].
  all: try solve [right; left; do 3 eexists; split;
                  [reflexivity | left; reflexivity]].
  all: try solve [right; right; left; eauto using role_of_In].
  all: try solve [right; right; right; do 4 eexists; split;
                  [eassumption | reflexivity]].
Qed.

Lemma step_after_answer (c : server) (i : input) (k : nat)
    (pt : bridge_point) (who : caller) :
  after_answer pt = true ->
  In (k, Bridge pt who) (pending (fst (step c i))) ->
  In (k, Bridge pt who) (pending c)
  \/ ((exists sock sdp,
         In (SocketEmit sock "browser-answer" sdp) (snd (step c i)))
      /\ resumes c after_track)
  \/ resumes c after_answer.
Proof.
  unfold resumes.
  destruct i; unfold_all.
  all: repeat break_match; intros S H; prep.
  all: try solve [left; eauto using take_In, take_waiter_In].
  all: try solve [right; left; split;
                  [do 2 eexists; left; reflexivity
                  |do 4 eexists; split; [eassumption | reflexivity]]].
  all: try solve [right; right; do 4 eexists; split;
                  [eassumption | reflexivity]].
Qed.

Lemma step_browser_answer (c : server) (i : input) (sock : socket)
    (sdp : jsval) :
  In (SocketEmit sock "browser-answer" sdp) (snd (step c i)) ->
  resumes c after_track.
Proof.
  unfold resumes.
  destruct i; unfold_all.
  all: repeat break_match; intros H; prep.
  all: try solve [do 4 eexists; split; [eassumption | reflexivity]].
Qed.

Lemma track_seen_mono (t : turn) (log : list turn) :
  track_seen log -> track_seen (t :: log).
Proof. intros (x & H & P). exists x. split; [now right | exact P]. Qed.

Lemma browser_answered_mono (t : turn) (log : list turn) :
  browser_answered log -> browser_answered (t :: log).
Proof.
  intros (later & i & fx & earlier & sock & sdp & E & A & T).
  exists (t :: later), i, fx, earlier, sock, sdp. rewrite E. auto.
Qed.

Lemma order_inv_step (c : server) (log : list turn) (i : input) :
  order_inv c log ->
  order_inv (fst (step c i)) ((i, snd (step c i)) :: log).
Proof.
  intros (F & T & A). split; [|split].
  - intros pc t H. destruct (step_fulfilled _ _ _ _ H) as [Old | New].
    + apply track_seen_mono, (F _ _ Old).
    + exists (i, snd (step c i)). split; [now left | exact New].
  - intros k pt who H S.
    destruct (step_after_track _ _ _ _ _ S H)
      as [Old | [New | [(pc & t & P) | (k0 & pt0 & who0 & rest & Tk & S0)]]].
    + apply track_seen_mono, (T _ _ _ Old S).
    + exists (i, snd (step c i)). split; [now left | exact New].
    + apply track_seen_mono, (F _ _ P).
    + apply track_seen_mono, (T _ _ _ (take_self _ _ _ _ Tk) S0).
  - intros k pt who H S.
    destruct (step_after_answer _ _ _ _ _ S H)
      as [Old | [((sock & sdp & E) & (k0 & pt0 & who0 & rest & Tk & S0))
                | (k0 & pt0 & who0 & rest & Tk & S0)]].
    + apply browser_answered_mono, (A _ _ _ Old S).
    + exists [], i, (snd (step c i)), log, sock, sdp.
      split; [reflexivity|]. split; [exact E|].
      apply (T _ _ _ (take_self _ _ _ _ Tk) S0).
    + apply browser_answered_mono, (A _ _ _ (take_self _ _ _ _ Tk) S0).
Qed.

Lemma order_log_step (c : server) (log : list turn) (i : input) :
  order_inv c log -> order_log log ->
  order_log ((i, snd (step c i)) :: log).
Proof.
  intros (F & T & A) L later i' fx earlier E.
  destruct later as [|t later].
  - cbn in E. injection E as <- <- <-. split.
    + intros sock sdp H.
      destruct (step_browser_answer _ _ _ _ H)
        as (k0 & pt0 & who0 & rest & Tk & S0).
      apply (T _ _ _ (take_self _ _ _ _ Tk) S0).
    + intros k body H Act.
      destruct (step_posts _ _ _ _ H)
        as [id _ B | id _ B | _ B | _ B | sock sdp _ B
            | k0 who rest sdp _ Tk _ B | kt final rest _ _ _ B];
        try (rewrite B in Act; discriminate Act).
      apply (A _ _ _ (take_self _ _ _ _ Tk)). reflexivity.
  - cbn in E. injection E as _ E. exact (L later i' fx earlier E).
Qed.

(** X11: along every run from the initial configuration, the browser is
    sent its answer (line 430) only after a provider-side peer has delivered
    a track, and a [pre_accept] request (line 439) is sent only after a turn
    in which the browser was sent an answer, itself after a track: neither
    side is answered before the provider's audio has arrived, and the
    browser is answered before the provider. *)
Theorem X11_bridge_order (inputs : list input) (later : list turn) (i : input)
    (fx : list effect) (earlier : list turn) :
  snd (exec server_initial [] inputs) = (later ++ (i, fx) :: earlier)%list ->
  (forall sock sdp,
     In (SocketEmit sock "browser-answer" sdp) fx -> track_seen earlier)
  /\ (forall k body,
        In (AxiosPost k body) fx ->
        prop body "action" = JStr "pre_accept" ->
        browser_answered earlier).
Proof.
  assert (G : forall c log, order_inv c log -> order_log log ->
                            order_log (snd (exec c log inputs))).
  { induction inputs as [|j rest IH]; intros c log Inv L; [exact L|].
    cbn [exec]. apply IH; [now apply order_inv_step | now apply order_log_step]. }
  apply (G server_initial []).
  - split; [|split]; intros; contradiction.
  - intros [|t l] j gx e E; discriminate E.
Qed.

Lemma X11_bridge_order_witness :
  snd (exec server_initial [] inbound_to_pre_accept)
  = ([] ++ (EngineDone 9 Settled,
            [AxiosPost 10 (answerCallToWhatsApp.body (JStr "A") "a=setup:active"
                             "pre_accept")])
        :: snd (exec server_initial [] (firstn 8 inbound_to_pre_accept)))%list
  /\ browser_answered (snd (exec server_initial [] (firstn 8 inbound_to_pre_accept))).
Proof.
  assert (E : snd (exec server_initial [] inbound_to_pre_accept)
              = ([] ++ (EngineDone 9 Settled,
                        [AxiosPost 10 (answerCallToWhatsApp.body (JStr "A")
                                         "a=setup:active" "pre_accept")])
                    :: snd (exec server_initial []
                              (firstn 8 inbound_to_pre_accept)))%list)
    by (vm_compute; reflexivity).
  split; [exact E|].
  apply (proj2 (X11_bridge_order inbound_to_pre_accept _ _ _ _ E) 10
           (answerCallToWhatsApp.body (JStr "A") "a=setup:active" "pre_accept")).
  - left. reflexivity.
  - reflexivity.
Defined.

(** ** Answers to the webhook route *)

Lemma count_app {A : Type} (f : A -> bool) (a b : list A) :
  count f (a ++ b)%list = count f a + count f b.
Proof. unfold count. now rewrite filter_app, List.length_app. Qed.

Lemma count_cons {A : Type} (f : A -> bool) (x : A) (l : list A) :
  count f (x :: l) = (if f x then 1 else 0) + count f l.
Proof. unfold count. cbn. now destruct (f x). Qed.

Lemma take_count (req k : nat) (l : list (nat * task)) (t : task)
    (rest : list (nat * task)) :
  take k l = Some (t, rest) ->
  count (awaits_for req) l
  = (if awaits_for req (k, t) then 1 else 0) + count (awaits_for req) rest.
Proof.
  revert rest; induction l as [|[k' t'] l IH]; intros rest H; [discriminate|].
  cbn [take] in H. destruct (Nat.eqb k k').
  - injection H as <- <-. now rewrite count_cons.
  - destruct (take k l) as [[t'' rest'']|]; [|discriminate].
    injection H as <- <-. rewrite !count_cons, (IH rest'' eq_refl).
    change (awaits_for req (k', t')) with (awaits_for req (k, t')).
    change (awaits_for req (k, t'')) with (awaits_for req (k', t'')).
    lia.
Qed.

Lemma take_waiter_count (req : nat) (pc : peer) (l : list (nat * task))
    (who : caller) (rest : list (nat * task)) :
  take_waiter pc l = Some (who, rest) ->
  count (awaits_for req) l
  = (if awaits_for req (0, Bridge (AtTrackWait pc) who) then 1 else 0)
    + count (awaits_for req) rest.
Proof.
  revert rest; induction l as [|[k' t'] l IH]; intros rest H; [discriminate|].
  cbn [take_waiter] in H.
  destruct t' as [[| | p | | | | |] w| | | | | | |];
    try (destruct (take_waiter pc l) as [[w' rest']|]; [|discriminate];
         injection H as <- <-; rewrite !count_cons, (IH rest' eq_refl);
         cbn [awaits_for snd]; lia).
  destruct (Nat.eqb_spec pc p) as [->|].
  - injection H as <- <-. rewrite count_cons. reflexivity.
  - destruct (take_waiter pc l) as [[w' rest']|]; [|discriminate].
    injection H as <- <-. rewrite !count_cons, (IH rest' eq_refl).
    cbn [awaits_for snd]. lia.
Qed.

Lemma forward_count (req : nat) (pc : option peer) (ts : list track)
    (fx : list effect) :
  forward pc ts = Some fx -> count (is_ack req) fx = 0.
Proof.
  unfold forward. destruct ts as [|t ts]; [now intros [= <-]|].
  destruct pc as [p|]; [|discriminate]. intros [= <-].
  change (AddTrack p t :: map (AddTrack p) ts)
    with (map (AddTrack p) (t :: ts)).
  unfold count. generalize (t :: ts). intros l.
  induction l as [|x l IH]; [reflexivity | exact IH].
Qed.

Lemma step_ack (c : server) (i : input) (req : nat) :
  count (is_ack req) (snd (step c i))
  + count (awaits_for req) (pending (fst (step c i)))
  = count (awaits_for req) (pending c) + (if is_post_for req i then 1 else 0).
Proof.
  destruct i; cbn [is_post_for]; unfold_all.
  all: repeat break_match;
    cbn [fst snd pending with_pending with_globals with_peers].
  all: repeat match goal with
       | H : take _ _ = Some _ |- _ => apply (take_count req) in H
       | H : take_waiter _ _ = Some _ |- _ =>
           cbn [pending with_pending with_globals with_peers] in H;
           apply (take_waiter_count req) in H
       | H : forward _ _ = Some _ |- _ => apply (forward_count req) in H
       end.
  all: cbn [app] in *;
    repeat (rewrite ?count_app, ?count_cons;
            cbn [is_ack awaits_for snd] in * );
    change (@count effect (is_ack req) []) with 0 in *.
  all: repeat match goal with
       | |- context [Nat.eqb ?a ?b] => destruct (Nat.eqb a b)
       | H : context [Nat.eqb ?a ?b] |- _ => destruct (Nat.eqb a b)
       end.
  all: lia.
Qed.

(** X12: every webhook POST is answered exactly once.  Along every run, for
    every request, the statuses sent to it so far plus the bridge attempts
    it still waits on add up to the number of times it was received: the
    answer is sent in the turn of the POST or, when the POST started a
    bridge attempt, when that attempt ends or throws; never twice, and
    never for a request that was not made. *)
Theorem X12_webhook_answered_once (inputs : list input) (req : nat) :
  count (is_ack req) (concat (snd (run server_initial inputs)))
  + count (awaits_for req) (pending (after inputs))
  = count (is_post_for req) inputs.
Proof.
  unfold after.
  assert (G : forall c,
             count (is_ack req) (concat (snd (run c inputs)))
             + count (awaits_for req) (pending (fst (run c inputs)))
             = count (awaits_for req) (pending c)
               + count (is_post_for req) inputs).
  { induction inputs as [|i rest IH]; intros c.
    - cbn [run fst snd concat].
      change (count (is_ack req) []) with 0.
      change (count (is_post_for req) []) with 0. lia.
    - rewrite run_cons, run_cons_snd. cbn [concat].
      rewrite count_app, count_cons.
      pose proof (IH (fst (step c i))) as H1.
      pose proof (step_ack c i req) as H2. lia. }
  rewrite (G server_initial). reflexivity.
Qed.

(** ** The stored offers *)

(** X13: [browserOfferSdp] is written by a browser offer only, and
    [whatsappOfferSdp] by a well-formed [connect] event only (which stores
    whatever [session.sdp] it carries, [undefined] included); both are
    cleared only when the response to a [pre_accept] arrives.  No other
    event touches them: an offer stays stored through the end of its call
    and through a failed attempt. *)
Theorem X13_offer_writes (c : server) (i : input) :
  (browserOfferSdp (globals (fst (step c i))) = browserOfferSdp (globals c)
   \/ (exists sock sdp,
         i = BrowserOffer sock sdp
         /\ browserOfferSdp (globals (fst (step c i))) = sdp)
   \/ (exists k final who rest r now,
         i = AxiosDone k r now
         /\ take k (pending c) = Some (Bridge (AtPreAccept final) who, rest)
         /\ browserOfferSdp (globals (fst (step c i))) = JNull))
  /\ (whatsappOfferSdp (globals (fst (step c i))) = whatsappOfferSdp (globals c)
      \/ (exists req body,
            i = WebhookPost req body
            /\ connect_event body = true
            /\ whatsappOfferSdp (globals (fst (step c i))) = offered_sdp body)
      \/ (exists k final who rest r now,
            i = AxiosDone k r now
            /\ take k (pending c) = Some (Bridge (AtPreAccept final) who, rest)
            /\ whatsappOfferSdp (globals (fst (step c i))) = JNull)).
Proof.
  unfold connect_event, offered_sdp.
  destruct i; unfold_all.
  all: repeat break_match; cbn [fst snd]; split.
  all: try solve [left; reflexivity].
  all: try solve [right; left; do 2 eexists; split; reflexivity].
  all: try solve [right; right; do 6 eexists; split; [reflexivity|];
                  split; [eassumption | reflexivity]].
  all: try solve [right; left; do 2 eexists; split; [reflexivity|];
                  split; [|reflexivity];
                  apply andb_true_iff; split;
                  [now apply negb_false_iff | assumption]].
Qed.

(** ** The browser ends its outbound call *)

(** X14: handling [terminate-outbound-call] sends a [terminate] request only
    when a call id is stored, and ends, at once or when that request comes
    back, whatever its outcome, with the outbound record reset and
    [call-ended] broadcast.  The one exception is a stored call id that does
    not convert to a string: the log line of [terminateCall] then throws
    when the request comes back, and the handler ends with nothing reset and
    nothing broadcast. *)
Theorem X14_terminate_outbound (c : server) :
  step c TerminateOutboundCall
  = (if truthy (callId (outgoingCallState (globals c)))
     then (mkServer (globals c)
             ((nextId c,
               TerminateOutbound (callId (outgoingCallState (globals c))))
              :: pending c)
             (peers c) (S (nextId c)),
           [AxiosPost (nextId c)
              (terminateCall.body (callId (outgoingCallState (globals c))))])
     else (with_globals (resetOutgoingCallState (globals c)) c,
           [IoEmit "call-ended" JUndefined]))
  /\ (forall k id rest r now,
        take k (pending c) = Some (TerminateOutbound id, rest) ->
        step c (AxiosDone k r now)
        = if printable id
          then (with_globals (resetOutgoingCallState (globals c))
                  (with_pending rest c),
                [IoEmit "call-ended" JUndefined])
          else (with_pending rest c, [Unhandled])).
Proof.
  split.
  - cbn [step]. unfold on_terminate_outbound.
    destruct (truthy (callId (outgoingCallState (globals c)))); reflexivity.
  - intros k id rest r now H. unfold step. rewrite H. cbn [on_axios].
    pose proof (terminate_resume_total id r) as R.
    destruct (printable id).
    + rewrite R. reflexivity.
    + destruct R as [e R]. rewrite R. reflexivity.
Qed.

(** ** The call id of the handshake *)

Ltac tidy2 :=
  repeat match goal with
  | H : _ && _ = true |- _ => apply andb_true_iff in H; destruct H
  | H : _ || _ = false |- _ => apply orb_false_iff in H; destruct H
  | H : negb _ = false |- _ => apply negb_false_iff in H
  | H : negb _ = true |- _ => apply negb_true_iff in H
  end.

Lemma take_waiter_self (pc : peer) (l : list (nat * task)) (who : caller)
    (rest : list (nat * task)) :
  take_waiter pc l = Some (who, rest) ->
  exists k p, In (k, Bridge (AtTrackWait p) who) l.
Proof.
  revert rest; induction l as [|[k' t'] l IH]; intros rest H; [discriminate|].
  cbn [take_waiter] in H.
  destruct t' as [[| | p | | | | |] w| | | | | | |];
    try (destruct (take_waiter pc l) as [[w' rest']|]; [|discriminate];
         injection H as <- <-;
         destruct (IH rest' eq_refl) as (k & p0 & Hin);
         exists k, p0; now right).
  destruct (Nat.eqb pc p).
  - injection H as <- <-. exists k', p. now left.
  - destruct (take_waiter pc l) as [[w' rest']|]; [|discriminate].
    injection H as <- <-. destruct (IH rest' eq_refl) as (k & p0 & Hin).
    exists k, p0. now right.
Qed.

Lemma step_call_id_truthy (c : server) (i : input) :
  truthy (currentCallId (globals c)) = true ->
  truthy (currentCallId (globals (fst (step c i)))) = true.
Proof.
  destruct i; unfold_all.
  all: repeat break_match; cbn; intros H; try exact H.
  all: tidy; eauto using well_formed_id, initiate_resume_callId.
Qed.

Lemma step_call_known (c : server) (i : input) :
  call_known c -> call_known (fst (step c i)).
Proof.
  intros [T | [P N]]; [left; now apply step_call_id_truthy|].
  unfold call_known.
  destruct i; unfold_all.
  all: repeat break_match;
    cbn [fst snd globals pending with_pending with_globals with_peers].
  all: try solve [right; split; [exact P | exact N]].
  all: try match goal with
       | H : take _ _ = Some (?t, _) |- _ =>
           let B := fresh in
           pose proof (N _ _ (take_self _ _ _ _ H)) as B;
           cbn in B; try discriminate B
       end.
  all: try match goal with
       | H : take_waiter _ _ = Some _ |- _ =>
           cbn [pending with_pending with_globals with_peers] in H;
           let B := fresh in
           destruct (take_waiter_self _ _ _ _ H) as (? & ? & B);
           apply N in B; discriminate B
       end.
  all: cbn in *; tidy2; try congruence.
  all: try solve [left; eauto using well_formed_id, initiate_resume_callId].
  all: try solve [right; split; [assumption|];
                  intros ? ? Hin;
                  repeat (destruct Hin as [Hin | Hin];
                          [inversion Hin; subst; reflexivity|]);
                  eapply N; eauto using take_In].
Qed.

Lemma ids_known_step (c : server) (log : list turn) (i : input) :
  call_known c -> ids_known log -> ids_known ((i, snd (step c i)) :: log).
Proof.
  intros K L i' fx k body [E | Old] P Act; [|exact (L _ _ _ _ Old P Act)].
  injection E as <- <-.
  assert (B : forall k0 t rest, take k0 (pending c) = Some (t, rest) ->
                                bridging t = true ->
                                truthy (currentCallId (globals c)) = true).
  { intros k0 t rest Tk Bt. destruct K as [T | [_ N]]; [exact T|].
    rewrite (N _ _ (take_self _ _ _ _ Tk)) in Bt. discriminate Bt. }
  destruct (step_posts _ _ _ _ P)
    as [id _ E | id _ E | _ E | _ E | sock sdp _ E
        | k0 who rest sdp _ Tk _ E | kt final rest _ Tk _ E];
    rewrite E in *;
    try (destruct Act as [Act | Act]; discriminate Act).
  - exact (B _ _ _ Tk eq_refl).
  - exact (B _ _ _ Tk eq_refl).
Qed.

(** X15: along every run from the initial configuration, every
    [pre_accept] and every [accept] request carries a truthy call id: a
    bridge attempt needs a provider offer, an offer is stored only by a
    webhook event, which stores its truthy id in [currentCallId] first, and
    [currentCallId] is never written with a falsy value afterwards. *)
Theorem X15_call_id_known (inputs : list input) (i : input) (fx : list effect)
    (k : nat) (body : jsval) :
  In (i, fx) (snd (exec server_initial [] inputs)) ->
  In (AxiosPost k body) fx ->
  prop body "action" = JStr "pre_accept" \/ prop body "action" = JStr "accept" ->
  truthy (prop body "call_id") = true.
Proof.
  assert (G : forall c log, call_known c -> ids_known log ->
                            ids_known (snd (exec c log inputs))).
  { induction inputs as [|j rest IH]; intros c log K L; [exact L|].
    cbn [exec]. apply IH; [now apply step_call_known | now apply ids_known_step]. }
  apply (G server_initial []).
  - right. split; [reflexivity | intros ? ? []].
  - intros ? ? ? ? [].
Qed.

Lemma X15_call_id_known_witness :
  In (EngineDone 9 Settled,
      [AxiosPost 10 (answerCallToWhatsApp.body (JStr "A") "a=setup:active"
                       "pre_accept")])
     (snd (exec server_initial [] inbound_to_pre_accept))
  /\ truthy (prop (answerCallToWhatsApp.body (JStr "A") "a=setup:active"
                     "pre_accept") "call_id") = true.
Proof.
  assert (H : In (EngineDone 9 Settled,
                  [AxiosPost 10 (answerCallToWhatsApp.body (JStr "A")
                                   "a=setup:active" "pre_accept")])
                 (snd (exec server_initial [] inbound_to_pre_accept)))
    by (vm_compute; left; reflexivity).
  split; [exact H|].
  apply (X15_call_id_known inbound_to_pre_accept _ _ 10 _ H).
  - left. reflexivity.
  - left. reflexivity.
Defined.

(** ** What makes a turn fail *)

Lemma step_handles_ready (c : server) (i : input) :
  handles_ready c -> handles_ready (fst (step c i)).
Proof.
  intros Inv k pt who. unfold handles_ready in Inv.
  destruct i; unfold_all.
  all: repeat break_match;
    cbn [fst snd pending with_pending with_globals with_peers]; intros H.
  all: repeat match goal with
       | Ht : take _ _ = Some (Bridge _ _, _) |- _ =>
           pose proof (Inv _ _ _ (take_self _ _ _ _ Ht));
           pose proof (fun x => take_In _ _ _ _ x Ht); clear Ht
       | Ht : take _ _ = Some _ |- _ =>
           pose proof (fun x => take_In _ _ _ _ x Ht); clear Ht
       | Ht : take_waiter _ _ = Some _ |- _ =>
           cbn [pending with_pending with_globals with_peers] in Ht;
           let B := fresh in
           destruct (take_waiter_self _ _ _ _ Ht) as (? & ? & B);
           apply Inv in B;
           pose proof (fun x => take_waiter_In _ _ _ _ x Ht); clear Ht
       end.
  all: repeat match goal with
       | H : In _ (_ :: _) |- _ => destruct H as [H | H]
       | H : (_, _) = (_, _) |- _ => inversion H; subst; clear H
       end.
  all: try match goal with
       | Hin : In (_, Bridge _ _) ?l, F : forall x, In x ?l -> In x _ |- _ =>
           apply F in Hin
       end.
  all: try match goal with
       | Hin : In (_, Bridge _ _) (pending _) |- _ => apply Inv in Hin
       end.
  all: unfold ready in *; cbn in *; tidy2.
  all: intuition (auto; congruence).
Qed.

Lemma step_peers_ready (c : server) (i : input) :
  handles_ready c -> peers_ready c -> peers_ready (fst (step c i)).
Proof.
  intros Inv P. unfold handles_ready in Inv. unfold peers_ready in *.
  destruct i; unfold_all.
  all: repeat break_match;
    cbn [fst snd peers with_pending with_globals with_peers]; intros H.
  all: repeat match goal with
       | Ht : take _ _ = Some (Bridge _ _, _) |- _ =>
           pose proof (Inv _ _ _ (take_self _ _ _ _ Ht)); clear Ht
       | Ht : take_waiter _ _ = Some _ |- _ =>
           cbn [pending with_pending with_globals with_peers] in Ht;
           let B := fresh in
           destruct (take_waiter_self _ _ _ _ Ht) as (? & ? & B);
           apply Inv in B; clear Ht
       end.
  all: unfold ready in *; cbn in *; tidy2.
  all: try solve [intuition (auto; congruence)].
  all: try solve [apply P; intros E;
                  match goal with
                  | R : role_of _ _ = Some _ |- _ =>
                      rewrite E in R; discriminate R
                  | R : armed_timer _ _ = Some _ |- _ =>
                      rewrite E in R; discriminate R
                  end].
  all: repeat match goal with
       | E : ?x = Some _ |- context [?x] => rewrite E
       end; cbn; intuition (auto; congruence).
Qed.

Lemma run_ready (inputs : list input) (c : server) :
  handles_ready c -> peers_ready c ->
  handles_ready (fst (run c inputs)) /\ peers_ready (fst (run c inputs)).
Proof.
  revert c; induction inputs as [|i rest IH]; intros c H P; [now split|].
  rewrite run_cons. apply IH.
  - now apply step_handles_ready.
  - now apply step_peers_ready.
Qed.

Lemma reachable_ready (inputs : list input) :
  handles_ready (after inputs) /\ peers_ready (after inputs).
Proof.
  apply run_ready.
  - intros k pt who [].
  - intros H. now elim H.
Qed.

Lemma forward_no_failure (pc : option peer) (ts : list track)
    (fx : list effect) :
  forward pc ts = Some fx -> existsb failure fx = false.
Proof.
  unfold forward. destruct ts as [|t ts]; [now intros [= <-]|].
  destruct pc as [p|]; [|discriminate]. intros [= <-].
  change (AddTrack p t :: map (AddTrack p) ts)
    with (map (AddTrack p) (t :: ts)).
  generalize (t :: ts). intros l.
  induction l as [|x l IH]; [reflexivity | exact IH].
Qed.

Lemma forward_none (pc : option peer) (ts : list track) :
  forward pc ts = None -> pc = None.
Proof.
  unfold forward. destruct ts; [discriminate|]. now destruct pc.
Qed.

Lemma initiate_resume_ret (phone : jsval) (r : axios_outcome) (now : Z)
    (e : js_error) :
  initiateWhatsAppCall.resume phone r now <> Throw e.
Proof.
  pose proof (initiate_resume_total phone r now) as H.
  destruct (confirmed r && printable phone).
  - destruct H as (d & _ & H). rewrite H. discriminate.
  - destruct H as (m & H). rewrite H. discriminate.
Qed.

Lemma interpolate_throw (holes : list jsval) (e : js_error) :
  interpolate holes = Throw e -> forallb printable holes = false.
Proof.
  induction holes as [|v rest IH]; [discriminate|].
  cbn [interpolate forallb]. unfold printable at 1.
  destruct (to_string v); cbn [bind]; [exact IH | reflexivity].
Qed.

Lemma reject_resume_throw (id : jsval) (r : axios_outcome) (e : js_error) :
  rejectCall.resume id r = Throw e -> printable id = false.
Proof.
  pose proof (reject_resume_total id r) as T.
  destruct (printable id); [|reflexivity]. rewrite T. discriminate.
Qed.

Lemma terminate_resume_throw (id : jsval) (r : axios_outcome) (e : js_error) :
  terminateCall.resume id r = Throw e -> printable id = false.
Proof.
  pose proof (terminate_resume_total id r) as T.
  destruct (printable id); [|reflexivity]. rewrite T. discriminate.
Qed.

Ltac unprintable :=
  unfold webhook_printable, caller_name, caller_number; cbn [forallb];
  repeat match goal with
  | H : context [printable ?v] |- _ => destruct (printable v)
  | |- context [printable ?v] => destruct (printable v)
  end; cbn in *; congruence.

Lemma step_failure (c : server) (i : input) :
  handles_ready c -> peers_ready c ->
  existsb failure (snd (step c i)) = true -> failure_cause c i.
Proof.
  intros Inv P. unfold handles_ready in Inv. unfold peers_ready in P.
  unfold failure_cause.
  destruct i; unfold_all.
  all: repeat break_match; cbn [fst snd]; intros H.
  all: repeat match goal with
       | F : forward _ _ = Some _ |- _ => apply forward_no_failure in F
       | F : forward _ _ = None |- _ => apply forward_none in F
       end.
  all: repeat (rewrite ?existsb_app in H;
               repeat match goal with
                      | F : existsb failure _ = false |- _ => rewrite F in H
                      end;
               progress cbn in H); try discriminate H.
  all: try solve [left; eauto 10].
  all: try solve [right; left; do 2 eexists; repeat split; eauto;
                  intros ? ? E; congruence].
  all: try solve [right; right; right; left; eauto].
  all: try solve [right; right; left; eauto 10].
  all: try solve [exfalso; eapply initiate_resume_ret; eassumption].
  all: repeat match goal with
       | E : interpolate _ = Throw _ |- _ =>
           apply interpolate_throw in E; cbn [forallb] in E
       | E : rejectCall.resume _ _ = Throw _ |- _ =>
           apply reject_resume_throw in E
       | E : terminateCall.resume _ _ = Throw _ |- _ =>
           apply terminate_resume_throw in E
       | E : context [if ?b then _ else _] |- _ => destruct b
       end.
  all: try solve [do 5 right; do 6 eexists; repeat split; eauto; reflexivity].
  all: try solve [do 4 right; left; do 2 eexists;
                  split; [reflexivity|];
                  split; [now apply negb_false_iff | unprintable]].
  all: exfalso.
  all: repeat match goal with
       | Ht : take _ _ = Some (Bridge _ _, _) |- _ =>
           pose proof (Inv _ _ _ (take_self _ _ _ _ Ht)); clear Ht
       | Ht : take_waiter _ _ = Some _ |- _ =>
           cbn [pending with_pending with_globals with_peers] in Ht;
           let B := fresh in
           destruct (take_waiter_self _ _ _ _ Ht) as (? & ? & B);
           apply Inv in B; clear Ht
       | R : role_of _ ?l = Some _ |- _ =>
           assert (l <> []) by (intros E; rewrite E in R; discriminate R);
           clear R
       end.
  all: unfold ready in *; cbn in *;
    repeat match goal with
    | E : ?x = None, H : context [?x] |- _ => rewrite E in H
    end; cbn in *.
  all: intuition (auto; congruence).
Qed.

(** X16: in a configuration the server can reach, a turn ends in an
    uncaught exception or rejection or in a 500 to a webhook POST only for
    one of two kinds of reason.  Either it comes from the peer engine: a
    promise a bridge attempt awaits rejects, the 10-second timer of a
    provider-side peer fires while its track promise is pending (or had
    fired when the provider-side [setRemoteDescription] resolves), or a
    browser-side track event carries no stream.  Or a log line meets a value
    that does not convert to a string: in a well-formed webhook event, or as
    the call id of a [reject] or [terminate] request whose response
    arrives.  In particular no turn fails on a [null] peer, stream or
    socket (while an attempt is under way the variables it dereferences are
    set); the turn of the 1-second timer, which sends the [accept], never
    fails; and the response to a [connect], [pre_accept] or [accept]
    request, whatever it is, never makes a turn fail. *)
Theorem X16_failure_causes (inputs : list input) (i : input) :
  existsb failure (snd (step (after inputs) i)) = true ->
  failure_cause (after inputs) i.
Proof.
  destruct (reachable_ready inputs) as [H P]. now apply step_failure.
Qed.

Lemma X16_failure_causes_witness :
  existsb failure (snd (step (after silent_provider_socket) (TimerFired 3))) = true
  /\ failure_cause (after silent_provider_socket) (TimerFired 3).
Proof.
  split; [reflexivity|].
  apply (X16_failure_causes silent_provider_socket (TimerFired 3)). reflexivity.
Defined.

(** ** ICE candidates *)

(** X17: in a configuration the server can reach, once a peer connection
    exists, a candidate from the browser is handed to the current
    browser-side peer, and a local candidate of a browser-side peer is
    relayed to the socket bound at that moment (the one of the latest
    browser offer), unless it is the [null] that ends the candidates; before
    any peer connection exists a candidate from the browser is dropped. *)
Theorem X17_ice_relay (inputs : list input) (candidate : jsval) :
  (browserPc (globals (after inputs)) = None ->
   step (after inputs) (BrowserCandidate candidate) = (after inputs, []))
  /\ (peers (after inputs) <> [] ->
      exists pc sock,
        browserPc (globals (after inputs)) = Some pc
        /\ browserSocket (globals (after inputs)) = Some sock
        /\ step (after inputs) (BrowserCandidate candidate)
           = (after inputs, [AddIceCandidate pc candidate])
        /\ forall p,
             role_of p (peers (after inputs)) = Some BrowserSide ->
             step (after inputs) (PeerIceCandidate p candidate)
             = (after inputs,
                if truthy candidate
                then [SocketEmit sock "browser-candidate" candidate]
                else [])).
Proof.
  destruct (reachable_ready inputs) as [_ P].
  generalize dependent (after inputs). intros c P. split.
  - intros N. cbn [step]. unfold on_browser_candidate. now rewrite N.
  - intros NE. destruct (P NE) as (A & _ & B).
    destruct (browserPc (globals c)) as [pc|] eqn:E1; [|discriminate A].
    destruct (browserSocket (globals c)) as [sock|] eqn:E2; [|discriminate B].
    exists pc, sock. repeat split.
    + cbn [step]. unfold on_browser_candidate. now rewrite E1.
    + intros p R. cbn [step]. unfold on_peer_ice. rewrite R, E2.
      now destruct (truthy candidate).
Qed.


(** ** What the browser is told of a webhook event *)

Lemma interpolate_ret (holes : list jsval) :
  forallb printable holes = true -> interpolate holes = Ret tt.
Proof.
  induction holes as [|v rest IH]; [reflexivity|].
  cbn [interpolate forallb]. unfold printable at 1. intros H.
  apply andb_true_iff in H as [P R].
  destruct (to_string v); [|discriminate P]. cbn [bind]. now apply IH.
Qed.

(** X18: of a well-formed webhook event whose values convert to strings (so
    that no log line of the route throws) the browser is told as follows.
    A [terminate] is always broadcast as [call-ended], whichever call it is
    about.  A [reject] or a [timeout] is broadcast only when it is about the
    outbound call in progress, and then with the callee's number as stored
    before the reset (unlike the browser's own [reject-outbound-call]); for
    any other call nothing is sent to the browser.  A [connect] is always
    broadcast, before anything the bridge emits, as
    [outgoing-call-connected] for the outbound call in progress and as
    [call-is-coming] otherwise, with the name [contact.profile.name] and the
    number [contact.wa_id] of the first contact of the payload, each
    replaced by "Unknown" when missing or empty, so always truthy. *)
Theorem X18_webhook_notifications (c : server) (req : nat) (body : jsval) :
  well_formed body = true ->
  webhook_printable body = true ->
  let id := prop (webhook_call body) "id" in
  let event := prop (webhook_call body) "event" in
  let number := phoneNumber (outgoingCallState (globals c)) in
  let callerName :=
    js_or (prop (prop (webhook_contact body) "profile") "name")
      (JStr "Unknown") in
  let callerNumber :=
    js_or (prop (webhook_contact body) "wa_id") (JStr "Unknown") in
  (event = JStr "terminate" ->
   snd (step c (WebhookPost req body))
   = [IoEmit "call-ended" JUndefined; SendStatus req 200])
  /\ (forall name,
        (event = JStr "reject" /\ name = "outgoing-call-rejected")
        \/ (event = JStr "timeout" /\ name = "outgoing-call-timeout") ->
        snd (step c (WebhookPost req body))
        = if is_ours (globals c) id
          then [IoEmit name (JObj [("callId", id); ("phoneNumber", number)]);
                SendStatus req 200]
          else [SendStatus req 200])
  /\ (event = JStr "connect" ->
      exists rest,
        truthy callerName = true /\ truthy callerNumber = true
        /\ snd (step c (WebhookPost req body))
           = (if is_ours (globals c) id
              then IoEmit "outgoing-call-connected"
                     (JObj [("callId", id); ("phoneNumber", callerNumber);
                            ("callerName", callerName)])
              else IoEmit "call-is-coming"
                     (JObj [("callId", id); ("callerName", callerName);
                            ("callerNumber", callerNumber)]))
             :: rest).
Proof.
  intros W L id event number callerName callerNumber.
  subst id event number callerName callerNumber.
  unfold webhook_printable in L. cbn [forallb] in L.
  apply andb_true_iff in L as [Pname L]. apply andb_true_iff in L as [Pnumber L].
  apply andb_true_iff in L as [Pid L]. apply andb_true_iff in L as [_ L].
  apply andb_true_iff in L as [Pduration L]. apply andb_true_iff in L as [Pstatus _].
  assert (Lid : interpolate [prop (webhook_call body) "id"] = Ret tt)
    by (apply interpolate_ret; cbn [forallb]; now rewrite Pid).
  cbn [step]. unfold on_webhook_post. rewrite W. cbn [negb].
  repeat split.
  - intros E. rewrite E. cbn -[webhook_call interpolate].
    unfold webhook_terminate. rewrite Lid.
    rewrite (interpolate_ret [prop (webhook_call body) "duration";
                              prop (webhook_call body) "status"])
      by (cbn [forallb]; now rewrite Pduration, Pstatus).
    now destruct (truthy _ && truthy _).
  - intros name [[E ->] | [E ->]]; rewrite E; cbn -[webhook_call interpolate];
      unfold webhook_outcome; rewrite Lid; unfold is_ours; cbn;
      now destruct (isOutgoingCall (globals c) && _).
  - intros E. rewrite E. cbn [strict_eq String.eqb Ascii.eqb Bool.eqb].
    change (strict_eq (JStr "connect") (JStr "connect")) with true. cbn match.
    unfold webhook_connect.
    change (js_or (prop (prop (webhook_contact body) "profile") "name")
              (JStr "Unknown")) with (caller_name body) in *.
    change (js_or (prop (webhook_contact body) "wa_id") (JStr "Unknown"))
      with (caller_number body) in *.
    rewrite (connect_logged body)
      by (unfold caller_printable; now rewrite Pname, Pnumber).
    match goal with
    | |- context [is_ours ?g ?i] =>
        change (is_ours g i)
          with (is_ours (globals c) (prop (webhook_call body) "id"))
    end.
    destruct (is_ours (globals c) (prop (webhook_call body) "id"));
      match goal with
      | |- context [initiateWebRTCBridge ?w ?x] =>
          destruct (initiateWebRTCBridge w x) as [[c1 fx] returned]
      end; eexists; (split; [|split]); try reflexivity;
      unfold caller_name, caller_number, js_or;
      match goal with
      | |- truthy (if truthy ?v then _ else _) = true =>
          destruct (truthy v) eqn:T; [exact T | reflexivity]
      end.
Qed.

Lemma X18_webhook_notifications_witness :
  snd (step (after outbound_ringing)
         (WebhookPost 1 (webhook_body "B" "reject" JUndefined)))
  = [IoEmit "outgoing-call-rejected"
       (JObj [("callId", JStr "B"); ("phoneNumber", JStr "15551234567")]);
     SendStatus 1 200].
Proof.
  assert (W : well_formed (webhook_body "B" "reject" JUndefined) = true)
    by reflexivity.
  exact (proj1 (proj2 (X18_webhook_notifications (after outbound_ringing) 1
                         (webhook_body "B" "reject" JUndefined) W eq_refl))
               "outgoing-call-rejected" (or_introl (conj eq_refl eq_refl))).
Defined.

(** ** Hanging up an inbound call *)

(** X19: the browser's [reject-call] and [terminate-call], and the arrival
    of the provider's response to either, whatever it is, leave every
    session variable and every peer as they were and send nothing to the
    browser: unlike their outbound twins they reset nothing and broadcast no
    [call-ended].  The turn of the event never fails; the turn of the
    response fails, with a rejection nobody handles, exactly when the call
    id the browser gave does not convert to a string. *)
Theorem X19_browser_hangup (c : server) (i : input) (id : jsval) :
  (i = RejectCallEv id \/ i = TerminateCallEv id)
  \/ (exists k r now t rest,
        i = AxiosDone k r now
        /\ take k (pending c) = Some (t, rest)
        /\ (t = RejectLog id \/ t = TerminateLog id)) ->
  globals (fst (step c i)) = globals c
  /\ peers (fst (step c i)) = peers c
  /\ existsb to_browser (snd (step c i)) = false
  /\ existsb failure (snd (step c i))
     = match i with
       | AxiosDone _ _ _ => negb (printable id)
       | _ => false
       end.
Proof.
  intros [[-> | ->] | (k & r & now & t & rest & -> & T & [-> | ->])].
  - now cbn.
  - now cbn.
  - cbn [step]. rewrite T. cbn [on_axios].
    pose proof (reject_resume_total id r) as R.
    destruct (printable id); [rewrite R | destruct R as [e R]; rewrite R];
      now cbn.
  - cbn [step]. rewrite T. cbn [on_axios].
    pose proof (terminate_resume_total id r) as R.
    destruct (printable id); [rewrite R | destruct R as [e R]; rewrite R];
      now cbn.
Qed.

Lemma X19_browser_hangup_witness :
  globals (fst (step (after inbound_to_pre_accept) (RejectCallEv (JStr "A"))))
  = globals (after inbound_to_pre_accept)
  /\ existsb to_browser
       (snd (step (after inbound_to_pre_accept) (RejectCallEv (JStr "A"))))
     = false.
Proof.
  assert (H : (RejectCallEv (JStr "A") = RejectCallEv (JStr "A")
               \/ RejectCallEv (JStr "A") = TerminateCallEv (JStr "A"))
              \/ (exists k r now t rest,
                    RejectCallEv (JStr "A") = AxiosDone k r now
                    /\ take k (pending (after inbound_to_pre_accept))
                       = Some (t, rest)
                    /\ (t = RejectLog (JStr "A") \/ t = TerminateLog (JStr "A"))))
    by (left; left; reflexivity).
  destruct (X19_browser_hangup (after inbound_to_pre_accept)
              (RejectCallEv (JStr "A")) (JStr "A") H) as (G & _ & B & _).
  split; [exact G | exact B].
Defined.
